(** * Token Bowl Chat: the real-time subscription client

    A shallow embedding of [src/token_bowl_chat/websocket_client_v3.py]
    (class [TokenBowlWebSocket]) and the properties of its connection
    life cycle, channel subscription, publication dispatch and outbound
    request/response operations.

    The client is stateful and talks to three collaborators that are not
    part of the package: the HTTP library, the publish/subscribe library
    and the caller's callbacks.  The client's own attributes are a record,
    the collaborators are an environment [Env] over an opaque [world], and
    every method is a computation in a state-and-exception monad that also
    records the calls it makes to the outside. *)

From Stdlib Require Import String Ascii List ZArith Lia Bool.
Import ListNotations.
#[local] Set Warnings "-register-all".
Open Scope string_scope.

(** ** Python values and exceptions *)

(** Values decoded from JSON ([response.json()], [context.data]). *)
Inductive json : Type :=
| JNull
| JBool (b : bool)
| JNum (z : Z)
| JStr (s : string)
| JList (items : list json)
| JDict (fields : list (string * json)).

(** The subclasses of Python's [Exception] that the module raises or can
    receive; every [except Exception] clause of the source catches each of
    them.  [NetworkError prefix cause] is [NetworkError(f"{prefix}: {e}")]
    raised [from e]: the message is determined by the prefix and the
    cause, which are what is kept here.  [ForeignError cls] stands for any
    other exception class (transport errors of the HTTP library, decoding
    and validation errors, errors raised by callbacks or by the
    publish/subscribe library). *)
Inductive exn : Type :=
| AuthenticationError (msg : string)
| NetworkError (prefix : string) (cause : exn)
| ServerError (msg : string)
| TimeoutError (msg : string)
| HTTPStatusError (status : Z)
| KeyError (key : string)
| TypeError (msg : string)
| ForeignError (cls : string).

(** A call either returns a value or raises. *)
Inductive outcome (A : Type) : Type :=
| Ret (a : A)
| Raise (e : exn).
Arguments Ret {A} a.
Arguments Raise {A} e.

(** [obj[key]] for a string key. *)
Fixpoint dict_get (key : string) (fields : list (string * json)) : option json :=
  match fields with
  | [] => None
  | (k, v) :: rest => if String.eqb k key then Some v else dict_get key rest
  end.

Definition subscript (obj : option json) (key : string) : outcome json :=
  match obj with
  | Some (JDict fields) =>
      match dict_get key fields with
      | Some v => Ret v
      | None => Raise (KeyError key)
      end
  | Some (JList _) => Raise (TypeError "list indices must be integers or slices, not str")
  | Some (JStr _) => Raise (TypeError "string indices must be integers, not 'str'")
  | _ => Raise (TypeError "object is not subscriptable")
  end.

Fixpoint chars (s : string) : list json :=
  match s with
  | EmptyString => []
  | String c rest => JStr (String c EmptyString) :: chars rest
  end.

(** The items a [for] loop draws from a value: the elements of a list, the
    keys of a dict, the characters of a string; other values are not
    iterable. *)
Definition py_iter (v : json) : outcome (list json) :=
  match v with
  | JList items => Ret items
  | JDict fields => Ret (map (fun kv => JStr (fst kv)) fields)
  | JStr s => Ret (chars s)
  | _ => Raise (TypeError "object is not iterable")
  end.

(** Truth value of [self.api_key]: [None] and the empty string are false. *)
Definition truthy (k : option string) : bool :=
  match k with
  | None => false
  | Some EmptyString => false
  | Some _ => true
  end.

(** [a or b] on optional strings. *)
Definition py_or (a b : option string) : option string :=
  if truthy a then a else b.

(** A Python [float] as [wait_until_connected] uses it: a finite number,
    counted in ticks of the event loop's clock, an infinity, or NaN. *)
Inductive pyfloat : Type :=
| Finite (ticks : Z)
| PlusInfinity
| MinusInfinity
| NaN.

(** [elapsed > timeout] for a finite [elapsed]: never true of positive
    infinity or NaN, always true of negative infinity. *)
Definition exceeds (elapsed : Z) (timeout : pyfloat) : bool :=
  match timeout with
  | Finite t => (t <? elapsed)%Z
  | MinusInfinity => true
  | PlusInfinity | NaN => false
  end.

(** [s.rstrip("/")]. *)
Fixpoint rstrip_slash (s : string) : string :=
  match s with
  | EmptyString => EmptyString
  | String c rest =>
      match rstrip_slash rest with
      | EmptyString => if Ascii.eqb c "/"%char then EmptyString else String c EmptyString
      | rest' => String c rest'
      end
  end.

(** ** The outside world *)

Inductive http_method : Type := GET | POST.

(** One request made through [httpx.AsyncClient]; every request of the
    module carries the [X-API-Key] header and a ten second timeout. *)
Record request : Type := mkRequest {
  req_method : http_method;
  req_url : string;
  req_api_key : string;
  req_json : option json
}.

(** What the HTTP call produces: the call itself raises (connection
    refused, timeout, ...), or a response arrives with a status code and a
    body whose [json()] gives a value or raises. *)
Inductive http_result : Type :=
| HttpRaises (e : exn)
| HttpResponse (status : Z) (body : outcome json).

(** [response.raise_for_status()] of the HTTP library: it raises
    [HTTPStatusError] unless the status is a 2xx success. *)
Definition is_success (status : Z) : bool :=
  (200 <=? status)%Z && (status <=? 299)%Z.

(** Life-cycle notifications of the publish/subscribe client, delivered to
    the handlers that [connect] registers. *)
Inductive notification : Type :=
| NConnected
| NDisconnected
| NError (e : exn).

Inductive hook : Type := HookConnected | HookDisconnected | HookError.

(** An awaited call into the event loop.  While the caller is suspended
    the loop may deliver notifications to the registered handlers; each
    handler's outcome is handed back before the call goes on, and in the
    end the call finishes with a result of type [R]. *)
Inductive await (W R : Type) : Type :=
| Done (r : R) (w : W)
| Notify (w : W) (n : notification) (k : outcome unit -> W -> await W R).
Arguments Done {W R} r w.
Arguments Notify {W R} w n k.

(** The collaborators.  [world] is the state of everything outside the
    client object (server, network, publish/subscribe library, the
    caller's own data, the clock); [handle] is a [CentrifugeClient]
    object, [subscription] one of its subscriptions and [message] a
    [MessageResponse].  [MessageResponse] is the model constructor applied
    to the keyword arguments [**data]; it is declared in [models.py].
    [loop_time] is one reading of the event loop's clock, in ticks: it
    gives a finite number, and the world is a later one afterwards. *)
Class Env : Type := mkEnv {
  world : Type;
  handle : Type;
  subscription : Type;
  message : Type;
  MessageResponse : list (string * json) -> outcome message;
  http_send : request -> world -> http_result * world;
  CentrifugeClient : json -> json -> world -> outcome handle * world;
  client_on : handle -> hook -> world -> outcome unit * world;
  client_connect : handle -> world -> await world (outcome unit);
  client_disconnect : handle -> world -> await world (outcome unit);
  new_subscription : handle -> json -> world -> outcome subscription * world;
  sub_on_publication : subscription -> world -> outcome unit * world;
  sub_subscribe : subscription -> world -> outcome unit * world;
  loop_time : world -> Z * world;
  asyncio_sleep : world -> await world unit
}.

(** ** The client object *)

Section Client.

Context {E : Env}.

(** A callback supplied by the caller: it runs in the outside world and
    may raise. *)
Definition callback : Type := world -> outcome unit * world.

Inductive callback_call : Type :=
| CbConnect
| CbDisconnect
| CbError (e : exn)
| CbMessage (m : message).

Inductive level : Type := DEBUG | INFO | ERROR.

(** The records written through [logger]; each names the format string of
    the source and carries its argument. *)
Inductive log_record : Type :=
| LogConnected
| LogDisconnected
| LogCentrifugoError (e : exn)
| LogConnectFailed (e : exn)
| LogSubscribed (channel : json)
| LogPublicationError (e : exn)
| LogSent
| LogSendFailed (e : exn)
| LogMarkedRead (message_id : string)
| LogMarkReadFailed (e : exn)
| LogMarkAllReadFailed (e : exn).

Inductive api : Type :=
| ApiConnect | ApiDisconnect | ApiSendMessage | ApiMarkAsRead
| ApiMarkAllAsRead | ApiWaitUntilConnected.

(** Everything the client does that is visible outside it, in the order in
    which it happens.  [ENotify held n] marks the delivery of notification
    [n] to its handler, [held] telling whether the client object held a
    [CentrifugeClient] at that moment; [EReturned] and [ERaised] mark the
    end of a public method; the other events are calls made by the
    client. *)
Inductive event : Type :=
| EHttp (r : request)
| ECentrifugeClient (url token : json)
| EClientOn (k : hook)
| EClientConnect
| EClientDisconnect
| ENewSubscription (channel : json)
| ESubOnPublication (channel : json)
| ESubscribe (channel : json)
| ECallback (c : callback_call)
| ELog (l : level) (r : log_record)
| ENotify (held : bool) (n : notification)
| EReturned (a : api)
| ERaised (a : api) (e : exn).

(** The attributes set by [__init__] (the read-receipt, unread-count and
    typing callbacks are stored and never read by any method, so they are
    left out), the outside world, and the record of events. *)
Record state : Type := mkState {
  api_key : option string;
  base_url : string;
  on_message : option (message -> callback);
  on_connect : option callback;
  on_disconnect : option callback;
  on_error : option (exn -> callback);
  _client : option handle;
  _connection_info : option json;
  _connected : bool;
  ext : world;
  trace : list event
}.

Definition set_client (c : option handle) (st : state) : state :=
  mkState (api_key st) (base_url st) (on_message st) (on_connect st)
    (on_disconnect st) (on_error st) c (_connection_info st)
    (_connected st) (ext st) (trace st).

Definition set_connection_info (i : option json) (st : state) : state :=
  mkState (api_key st) (base_url st) (on_message st) (on_connect st)
    (on_disconnect st) (on_error st) (_client st) i
    (_connected st) (ext st) (trace st).

Definition set_connected (b : bool) (st : state) : state :=
  mkState (api_key st) (base_url st) (on_message st) (on_connect st)
    (on_disconnect st) (on_error st) (_client st) (_connection_info st)
    b (ext st) (trace st).

Definition set_ext (w : world) (st : state) : state :=
  mkState (api_key st) (base_url st) (on_message st) (on_connect st)
    (on_disconnect st) (on_error st) (_client st) (_connection_info st)
    (_connected st) w (trace st).

Definition add_event (e : event) (st : state) : state :=
  mkState (api_key st) (base_url st) (on_message st) (on_connect st)
    (on_disconnect st) (on_error st) (_client st) (_connection_info st)
    (_connected st) (ext st) (trace st ++ [e]).

(** [TokenBowlWebSocket.__init__] (lines 38-82); [getenv] is the value of the
    environment variable [TOKEN_BOWL_CHAT_API_KEY]. *)
Definition init (key getenv : option string) (url : string)
    (on_msg : option (message -> callback)) (on_conn on_disc : option callback)
    (on_err : option (exn -> callback)) (w : world) : state :=
  mkState (py_or key getenv) (rstrip_slash url) on_msg on_conn on_disc on_err
    None None false w [].

(** ** The monad of methods *)

Definition M (A : Type) : Type := state -> outcome A * state.

Definition ret {A} (a : A) : M A := fun st => (Ret a, st).

Definition raise {A} (e : exn) : M A := fun st => (Raise e, st).

Definition bind {A B} (m : M A) (k : A -> M B) : M B :=
  fun st =>
    match m st with
    | (Ret a, st') => k a st'
    | (Raise e, st') => (Raise e, st')
    end.

(** [try: m except Exception as e: h e]; what [m] did before raising
    stays done. *)
Definition try_except {A} (m : M A) (h : exn -> M A) : M A :=
  fun st =>
    match m st with
    | (Ret a, st') => (Ret a, st')
    | (Raise e, st') => h e st'
    end.

Definition lift {A} (o : outcome A) : M A := fun st => (o, st).

Definition gets {A} (f : state -> A) : M A := fun st => (Ret (f st), st).

Definition modify (f : state -> state) : M unit := fun st => (Ret tt, f st).

Definition emit (e : event) : M unit := modify (add_event e).

Definition external {A} (f : world -> outcome A * world) : M A :=
  fun st => let (r, w) := f (ext st) in (r, set_ext w st).

End Client.

Declare Scope client_scope.
Delimit Scope client_scope with client.
Notation "x <- m ;; k" := (bind m (fun x => k))
  (at level 61, m at next level, right associativity) : client_scope.
Notation "m ;; k" := (bind m (fun _ => k))
  (at level 61, right associativity) : client_scope.
Open Scope client_scope.

(** ** The methods of [TokenBowlWebSocket] *)

Section Methods.

Context {E : Env}.

Fixpoint for_each {A} (f : A -> M unit) (l : list A) : M unit :=
  match l with
  | [] => ret tt
  | x :: rest => f x ;; for_each f rest
  end.

Definition log (l : level) (r : log_record) : M unit := emit (ELog l r).

(** [if self.on_x: self.on_x(...)], as in lines 119-120, 129-130 and
    134-135. *)
Definition call_if_set (c : option callback) (what : callback_call) : M unit :=
  match c with
  | None => ret tt
  | Some f => emit (ECallback what) ;; external f
  end.

(** One request through a fresh [httpx.AsyncClient], then
    [response.raise_for_status()]; the result is the response body. *)
Definition http (r : request) : M (outcome json) :=
  emit (EHttp r) ;;
  fun st =>
    match http_send r (ext st) with
    | (HttpRaises e, w) => (Raise e, set_ext w st)
    | (HttpResponse status body, w) =>
        if is_success status then (Ret body, set_ext w st)
        else (Raise (HTTPStatusError status), set_ext w st)
    end.

(** The keyword arguments [**data]: [data] has to be a mapping. *)
Definition unpack_kwargs (data : json) : outcome (list (string * json)) :=
  match data with
  | JDict fields => Ret fields
  | _ => Raise (TypeError "argument after ** must be a mapping")
  end.

(** [on_publication] (lines 160-169), given [context.data]. *)
Definition on_publication (data : json) : M unit :=
  try_except
    (cb <- gets on_message ;;
     match cb with
     | None => ret tt
     | Some f =>
         kwargs <- lift (unpack_kwargs data) ;;
         m <- lift (MessageResponse kwargs) ;;
         emit (ECallback (CbMessage m)) ;;
         external (f m)
     end)
    (fun e => log ERROR (LogPublicationError e)).

(** [_subscribe_channel] (lines 149-173). *)
Definition _subscribe_channel (channel : json) : M unit :=
  c <- gets _client ;;
  match c with
  | None => ret tt
  | Some h =>
      emit (ENewSubscription channel) ;;
      sub <- external (new_subscription h channel) ;;
      emit (ESubOnPublication channel) ;;
      external (sub_on_publication sub) ;;
      emit (ESubscribe channel) ;;
      external (sub_subscribe sub) ;;
      log INFO (LogSubscribed channel)
  end.

(** The three handlers that [connect] defines and registers (lines
    116-135). *)
Definition on_connected : M unit :=
  modify (set_connected true) ;;
  log INFO LogConnected ;;
  cb <- gets on_connect ;;
  call_if_set cb CbConnect ;;
  info <- gets _connection_info ;;
  channels <- lift (subscript info "channels") ;;
  items <- lift (py_iter channels) ;;
  for_each _subscribe_channel items.

Definition on_disconnected : M unit :=
  modify (set_connected false) ;;
  log INFO LogDisconnected ;;
  cb <- gets on_disconnect ;;
  call_if_set cb CbDisconnect.

Definition on_error_event (error : exn) : M unit :=
  log ERROR (LogCentrifugoError error) ;;
  cb <- gets on_error ;;
  call_if_set (option_map (fun f => f error) cb) (CbError error).

(** Delivery of a notification by the publish/subscribe client to the
    handler registered for it. *)
Definition holds_client (st : state) : bool :=
  match _client st with
  | Some _ => true
  | None => false
  end.

Definition dispatch (n : notification) : M unit :=
  held <- gets holds_client ;;
  emit (ENotify held n) ;;
  match n with
  | NConnected => on_connected
  | NDisconnected => on_disconnected
  | NError e => on_error_event e
  end.

(** Running an awaited call: notifications that arrive meanwhile run
    their handlers on the client, and what a handler returns or raises
    goes back to the one who delivered it. *)
Fixpoint run_await {R} (a : await world R) (st : state) : R * state :=
  match a with
  | Done r w => (r, set_ext w st)
  | Notify w n k =>
      let (r, st') := dispatch n (set_ext w st) in
      run_await (k r (ext st')) st'
  end.

Definition awaiting {R} (f : world -> await world R) : M R :=
  fun st => let (r, st') := run_await (f (ext st)) st in (Ret r, st').

(** The value sent in the [X-API-Key] header. *)
Definition key_text (k : option string) : string :=
  match k with
  | Some s => s
  | None => ""
  end.

(** The [try] block of [connect] (lines 99-142). *)
Definition connecting (key : option string) : M unit :=
  url <- gets base_url ;;
  body <- http (mkRequest GET (url ++ "/centrifugo/connection-token")
                  (key_text key) None) ;;
  info <- lift body ;;
  modify (set_connection_info (Some info)) ;;
  info <- gets _connection_info ;;
  ws_url <- lift (subscript info "url") ;;
  token <- lift (subscript info "token") ;;
  emit (ECentrifugeClient ws_url token) ;;
  h <- external (CentrifugeClient ws_url token) ;;
  modify (set_client (Some h)) ;;
  emit (EClientOn HookConnected) ;;
  external (client_on h HookConnected) ;;
  emit (EClientOn HookDisconnected) ;;
  external (client_on h HookDisconnected) ;;
  emit (EClientOn HookError) ;;
  external (client_on h HookError) ;;
  emit EClientConnect ;;
  r <- awaiting (client_connect h) ;;
  lift r.

(** [connect] (lines 93-147). *)
Definition connect : M unit :=
  key <- gets api_key ;;
  if negb (truthy key) then
    raise (AuthenticationError "API key is required for WebSocket connection")
  else
    try_except
      (connecting key)
      (fun e =>
         log ERROR (LogConnectFailed e) ;;
         raise (NetworkError "Failed to connect to Centrifugo" e)).

(** [disconnect] (lines 175-180). *)
Definition disconnect : M unit :=
  c <- gets _client ;;
  match c with
  | None => ret tt
  | Some h =>
      emit EClientDisconnect ;;
      r <- awaiting (client_disconnect h) ;;
      lift r ;;
      modify (set_client None) ;;
      modify (set_connected false)
  end.

(** [send_message] (lines 182-213). *)
Definition send_message (content : string) (to_username : option string) : M unit :=
  key <- gets api_key ;;
  if negb (truthy key) then raise (AuthenticationError "API key is required")
  else
    try_except
      (let payload :=
         if truthy to_username
         then [("content", JStr content); ("to_username", JStr (key_text to_username))]
         else [("content", JStr content)] in
       url <- gets base_url ;;
       http (mkRequest POST (url ++ "/messages") (key_text key)
               (Some (JDict payload))) ;;
       log DEBUG LogSent)
      (fun e =>
         log ERROR (LogSendFailed e) ;;
         raise (NetworkError "Failed to send message" e)).

(** [mark_as_read] (lines 215-235). *)
Definition mark_as_read (message_id : string) : M unit :=
  key <- gets api_key ;;
  if negb (truthy key) then raise (AuthenticationError "API key is required")
  else
    try_except
      (url <- gets base_url ;;
       http (mkRequest POST (url ++ "/messages/" ++ message_id ++ "/read")
               (key_text key) None) ;;
       log DEBUG (LogMarkedRead message_id))
      (fun e => log ERROR (LogMarkReadFailed e)).

(** The fallback result [{"count": 0}]. *)
Definition zero_count : json := JDict [("count", JNum 0)].

(** [mark_all_as_read] (lines 237-258). *)
Definition mark_all_as_read : M json :=
  key <- gets api_key ;;
  if negb (truthy key) then raise (AuthenticationError "API key is required")
  else
    try_except
      (url <- gets base_url ;;
       body <- http (mkRequest POST (url ++ "/messages/mark-all-read")
                       (key_text key) None) ;;
       lift body)
      (fun e => log ERROR (LogMarkAllReadFailed e) ;; ret zero_count).

(** The [connected] property (lines 260-267). *)
Definition connected (st : state) : bool := _connected st.

(** [wait_until_connected] (lines 269-282).  The clock is read once
    before the loop and once in every round (lines 278 and 280), each
    reading being a call of its own; the readings are finite and counted
    in ticks, and [timeout] is the float that the caller passed.  The loop
    of the source has no bound of its own, so the model counts the rounds
    it may still take: [None] means the rounds ran out with the loop
    still waiting. *)
Fixpoint wait_loop (rounds : nat) (start_time : Z) (timeout : pyfloat) (st : state)
    : option (outcome unit) * state :=
  match rounds with
  | O => (None, st)
  | S rounds' =>
      if _connected st then (Some (Ret tt), st)
      else
        let (now, w) := loop_time (ext st) in
        if exceeds (now - start_time) timeout
        then (Some (Raise (TimeoutError "Connection timeout")), set_ext w st)
        else
          let (_, st') := run_await (asyncio_sleep w) (set_ext w st) in
          wait_loop rounds' start_time timeout st'
  end.

Definition wait_until_connected (rounds : nat) (timeout : pyfloat) (st : state)
    : option (outcome unit) * state :=
  let (start_time, w) := loop_time (ext st) in
  wait_loop rounds start_time timeout (set_ext w st).

(** ** Histories of operations *)

(** What can happen to a client after construction: the caller invokes a
    public method, or the publish/subscribe client delivers a
    notification or a publication between two such calls. *)
Inductive op : Type :=
| OpConnect
| OpDisconnect
| OpSendMessage (content : string) (to_username : option string)
| OpMarkAsRead (message_id : string)
| OpMarkAllAsRead
| OpWaitUntilConnected (rounds : nat) (timeout : pyfloat)
| OpNotify (n : notification)
| OpPublication (data : json).

(** The end of a public method, as the caller sees it. *)
Definition finish {A} (a : api) (r : outcome A * state) : state :=
  match r with
  | (Ret _, st) => add_event (EReturned a) st
  | (Raise e, st) => add_event (ERaised a e) st
  end.

Definition step (o : op) (st : state) : state :=
  match o with
  | OpConnect => finish ApiConnect (connect st)
  | OpDisconnect => finish ApiDisconnect (disconnect st)
  | OpSendMessage c t => finish ApiSendMessage (send_message c t st)
  | OpMarkAsRead i => finish ApiMarkAsRead (mark_as_read i st)
  | OpMarkAllAsRead => finish ApiMarkAllAsRead (mark_all_as_read st)
  | OpWaitUntilConnected rounds timeout =>
      match wait_until_connected rounds timeout st with
      | (Some r, st') => finish ApiWaitUntilConnected (r, st')
      | (None, st') => st'
      end
  | OpNotify n => snd (dispatch n st)
  | OpPublication data => snd (on_publication data st)
  end.

Definition run_ops (ops : list op) (st : state) : state :=
  fold_left (fun s o => step o s) ops st.

End Methods.

(** ** Reading the record of events *)

Section Observers.

Context {E : Env}.

(** The HTTP requests made. *)
Definition http_requests (tr : list event) : list request :=
  flat_map (fun e => match e with EHttp r => [r] | _ => [] end) tr.

(** The channels for which a subscription was started
    ([new_subscription]), and those whose subscription went through to
    the end ([subscribe] returned). *)
Definition attempted (tr : list event) : list json :=
  flat_map (fun e => match e with ENewSubscription c => [c] | _ => [] end) tr.

Definition subscribed (tr : list event) : list json :=
  flat_map (fun e => match e with ELog INFO (LogSubscribed c) => [c] | _ => [] end) tr.

(** The messages handed to the message callback. *)
Definition delivered (tr : list event) : list message :=
  flat_map (fun e => match e with ECallback (CbMessage m) => [m] | _ => [] end) tr.

(** The failures logged by the publication handler. *)
Definition publication_errors (tr : list event) : list exn :=
  flat_map (fun e => match e with ELog ERROR (LogPublicationError x) => [x] | _ => [] end) tr.

Definition is_disconnect_callback (e : event) : bool :=
  match e with ECallback CbDisconnect => true | _ => false end.

Definition is_disconnected_notification (e : event) : bool :=
  match e with ENotify _ NDisconnected => true | _ => false end.

Definition is_connected_notification (e : event) : bool :=
  match e with ENotify _ NConnected => true | _ => false end.

Definition disconnect_callbacks (tr : list event) : nat :=
  length (filter is_disconnect_callback tr).

Definition disconnected_notifications (tr : list event) : nat :=
  length (filter is_disconnected_notification tr).

Definition notified_connected (tr : list event) : bool :=
  existsb is_connected_notification tr.

(** The connected flag as the notifications of a history leave it: a
    connected notification raises it, a disconnected one lowers it, and
    no other event touches it. *)
Definition notified (flag : bool) (evs : list event) : bool :=
  fold_left
    (fun b e =>
       match e with
       | ENotify _ NConnected => true
       | ENotify _ NDisconnected => false
       | _ => b
       end)
    evs flag.

(** The clock has moved on whenever a sleep is over: a reading taken
    after the sleep is later than the one taken before it. *)
Definition clock_advances : Prop :=
  forall s : state,
    (fst (loop_time (ext s)) <
     fst (loop_time
            (ext (snd (run_await (asyncio_sleep (snd (loop_time (ext s))))
                         (set_ext (snd (loop_time (ext s))) s))))))%Z.

(** No connected notification reaches the client while it sleeps. *)
Definition never_connects : Prop :=
  forall s : state,
    _connected s = false ->
    _connected (snd (run_await (asyncio_sleep (ext s)) s)) = false.

(** The messages that a sequence of payloads holds: a payload counts when
    it is a mapping from whose fields [MessageResponse] can be built. *)
Definition accepted (ds : list json) : list message :=
  flat_map
    (fun d =>
       match d with
       | JDict fields =>
           match MessageResponse fields with
           | Ret m => [m]
           | Raise _ => []
           end
       | _ => []
       end)
    ds.

(** The cause of a failed request: the call raised, or the status was not
    a success. *)
Definition send_failure (r : http_result) : option exn :=
  match r with
  | HttpRaises e => Some e
  | HttpResponse status _ =>
      if is_success status then None else Some (HTTPStatusError status)
  end.

(** The requests of [connect], [mark_as_read] and [mark_all_as_read]. *)
Definition bootstrap_request (st : state) : request :=
  mkRequest GET (base_url st ++ "/centrifugo/connection-token")
    (key_text (api_key st)) None.

Definition read_request (message_id : string) (st : state) : request :=
  mkRequest POST (base_url st ++ "/messages/" ++ message_id ++ "/read")
    (key_text (api_key st)) None.

Definition read_all_request (st : state) : request :=
  mkRequest POST (base_url st ++ "/messages/mark-all-read")
    (key_text (api_key st)) None.

End Observers.

(** ** A scripted environment

    Concrete collaborators for running the model: the world is the
    reading of the clock, every request is answered by [answer], every
    [subscribe] by [subscribing], and the handshake and the teardown of
    the transport are the given calls.  A sleep takes a hundred ticks,
    a reading of the clock one. *)

(** Modelled from the spec: [MessageResponse] is declared in [models.py],
    which is not among the sources.  A chat message has the fields id,
    sender, optional recipient, content, kind and timestamp; construction
    fails when a required one is missing. *)
Definition message_of_fields (kwargs : list (string * json)) : outcome (list (string * json)) :=
  if forallb (fun k => match dict_get k kwargs with Some _ => true | None => false end)
       ["id"; "from_username"; "content"; "message_type"; "timestamp"]
  then Ret kwargs
  else Raise (ForeignError "ValidationError").

Definition scripted (answer : request -> http_result)
    (subscribing : json -> outcome unit)
    (handshake teardown : Z -> await Z (outcome unit)) : Env :=
  mkEnv Z unit json (list (string * json)) message_of_fields
    (fun r w => (answer r, w))
    (fun _ _ w => (Ret tt, w))
    (fun _ _ w => (Ret tt, w))
    (fun _ => handshake)
    (fun _ => teardown)
    (fun _ channel w => (Ret channel, w))
    (fun _ w => (Ret tt, w))
    (fun channel w => (subscribing channel, w))
    (fun w => (w, (w + 1)%Z))
    (fun w => Done tt (w + 100)%Z).

Definition credentials : json :=
  JDict [("url", JStr "wss://rt.example/connection");
         ("token", JStr "t0");
         ("channels", JList [JStr "room"; JStr "dm:alice"])].

Definition answer_ok (r : request) : http_result :=
  match req_method r with
  | GET => HttpResponse 200 (Ret credentials)
  | POST => HttpResponse 200 (Ret (JDict [("count", JNum 3)]))
  end.

Definition answer_status (status : Z) (r : request) : http_result :=
  HttpResponse status (Ret JNull).

Definition subscribing_ok (channel : json) : outcome unit := Ret tt.


Definition quiet (w : Z) : await Z (outcome unit) := Done (Ret tt) w.

Definition notifying (n : notification) (w : Z) : await Z (outcome unit) :=
  Notify w n (fun _ w' => Done (Ret tt) w').


(** A client built with callbacks that do nothing, in a world whose clock
    reads [w]. *)
Definition silent {E : Env} : callback := fun w => (Ret tt, w).

Definition fresh_client (E : Env) (key : option string) (w : world) : state :=
  init key None "https://api.tokenbowl.ai/"
    (Some (fun _ => silent)) (Some silent) (Some silent) (Some (fun _ => silent)) w.

Definition well_formed : json :=
  JDict [("id", JStr "msg-1"); ("from_username", JStr "alice");
         ("to_username", JNull); ("content", JStr "Hello!");
         ("message_type", JStr "room");
         ("timestamp", JStr "2025-10-16T12:00:00Z")].

Definition malformed : json :=
  JDict [("id", JStr "msg-0"); ("content", JStr "no sender")].

(** ** Relating a state to a later one *)

Section Relations.

Context {E : Env}.

(** A property of an earlier state, a later state and the events recorded
    in between. *)
Definition progress : Type := state -> state -> list event -> Prop.

(** [s'] comes after [s]: the record of events has only grown, and what
    was added satisfies [P]. *)
Definition grows (P : progress) (s s' : state) : Prop :=
  exists evs, trace s' = (trace s ++ evs)%list /\ P s s' evs.

(** Every run of [m] satisfies [P]. *)
Definition tracked (P : progress) {A} (m : M A) : Prop :=
  forall st, grows P st (snd (m st)).

(** The events that neither deliver a notification nor invoke the
    disconnect callback. *)
Definition plain (e : event) : bool :=
  match e with
  | ENotify _ _ => false
  | ECallback CbDisconnect => false
  | _ => true
  end.

(** A property that every elementary step of the methods satisfies: doing
    nothing, doing one thing after another, a change of the outside
    world, storing the credentials or a transport handle, and recording a
    plain event. *)
Record steady (P : progress) : Prop := mkSteady {
  steady_refl : forall st, P st st [];
  steady_trans : forall s1 s2 s3 e1 e2,
    P s1 s2 e1 -> P s2 s3 e2 -> P s1 s3 (e1 ++ e2)%list;
  steady_ext : forall st w, P st (set_ext w st) [];
  steady_info : forall st i, P st (set_connection_info i st) [];
  steady_client : forall st h, P st (set_client (Some h) st) [];
  steady_plain : forall st e, plain e = true -> P st (add_event e st) [e]
}.

(** A property that also holds of the last two assignments of
    [disconnect] (lines 179-180). *)
Definition allows_reset (P : progress) : Prop :=
  forall st, P st (set_connected false (set_client None st)) [].

(** The disconnect callback, when one is set, is invoked exactly as often
    as the transport notifies a disconnection. *)
Definition callbacks_counted : progress :=
  fun s s' evs =>
    on_disconnect s' = on_disconnect s /\
    disconnect_callbacks evs =
      match on_disconnect s with
      | Some _ => disconnected_notifications evs
      | None => 0
      end.

(** The flag is what the notifications made of it. *)
Definition flag_follows : progress :=
  fun s s' evs => _connected s' = notified (_connected s) evs.

(** If the flag is up, the notifications have raised it or left it up. *)
Definition raised_by_notification : progress :=
  fun s s' evs => _connected s' = true -> notified (_connected s) evs = true.


End Relations.

(** ** Scenarios *)

(** Every request succeeds and the transport stays silent. *)
Definition calm : Env := scripted answer_ok subscribing_ok quiet quiet.


(** The server answers every request with the given status. *)
Definition rejecting (status : Z) : Env :=
  scripted (answer_status status) subscribing_ok quiet quiet.

(** The transport notifies the connection during the handshake and the
    disconnection during the teardown. *)
Definition announcing : Env :=
  scripted answer_ok subscribing_ok (notifying NConnected) (notifying NDisconnected).


(** The handshake is silent; the teardown notifies the disconnection. *)
Definition late_notice : Env :=
  scripted answer_ok subscribing_ok quiet (notifying NDisconnected).

(** The teardown notifies the disconnection twice. *)
Definition repeating : Env :=
  scripted answer_ok subscribing_ok (notifying NConnected)
    (fun w => Notify w NDisconnected
                (fun _ w' => Notify w' NDisconnected (fun _ w'' => Done (Ret tt) w''))).

(** The transport notifies the connection during the handshake, and its
    teardown fails. *)
Definition clinging : Env :=
  scripted answer_ok subscribing_ok (notifying NConnected)
    (fun w => Done (Raise (ForeignError "CloseError")) w).

Definition keyless : state := fresh_client calm None 0%Z.

Definition keyed (E : Env) (w : world) : state := fresh_client E (Some "k") w.

(** The client after [connect()]. *)
Definition joined (E : Env) (w : world) : state := snd (connect (keyed E w)).

(** The events recorded after those of [before]. *)
Definition since {E : Env} (before after : state) : list event :=
  skipn (length (trace before)) (trace after).

Definition session : list op :=
  [OpConnect; OpNotify NConnected; OpPublication well_formed; OpMarkAllAsRead;
   OpDisconnect; OpDisconnect].

(** A second [connect()] leaves the first transport client alive; after
    [disconnect()] that one still notifies its connection. *)
Definition overlapping : list op :=
  [OpConnect; OpConnect; OpDisconnect; OpNotify NConnected; OpDisconnect].

(** ** The rest of the client: footprints and the context manager *)

Section Footprints.

Context {E : Env}.

(** [__aenter__] and [__aexit__] (lines 84-91). *)
Definition __aenter__ : M unit := connect.

Definition __aexit__ : M unit := disconnect.

(** [async with client: body], as Python runs it with these two methods:
    the body runs only if entering returned; leaving is attempted
    whatever the body did; [__aexit__] returns [None], so an exception of
    the body is raised again after it, unless leaving itself raises. *)
Definition async_with {A} (body : M A) : M A :=
  __aenter__ ;;
  fun st =>
    match body st with
    | (Ret a, s1) => (__aexit__ ;; ret a) s1
    | (Raise e, s1) => (__aexit__ ;; raise e) s1
    end.

(** The request of [send_message]. *)
Definition message_request (payload : list (string * json)) (st : state) : request :=
  mkRequest POST (base_url st ++ "/messages") (key_text (api_key st))
    (Some (JDict payload)).

(** Why a request whose body is read came to nothing: it failed, or its
    body could not be decoded. *)
Definition body_failure (r : http_result) : option exn :=
  match send_failure r with
  | Some e => Some e
  | None =>
      match r with
      | HttpResponse _ (Raise e) => Some e
      | _ => None
      end
  end.

(** What is wrong with credentials that lack their [url] or their
    [token]. *)
Definition missing_credential (info : json) : option exn :=
  match subscript (Some info) "url" with
  | Raise e => Some e
  | Ret _ =>
      match subscript (Some info) "token" with
      | Raise e => Some e
      | Ret _ => None
      end
  end.

(** What [__init__] stores and no method changes, with the credentials. *)
Definition same_setup (s s' : state) : Prop :=
  api_key s' = api_key s /\ base_url s' = base_url s /\
  on_message s' = on_message s /\ on_connect s' = on_connect s /\
  on_disconnect s' = on_disconnect s /\ on_error s' = on_error s /\
  _connection_info s' = _connection_info s.

(** The same, and the same transport handle. *)
Definition same_wiring (s s' : state) : Prop :=
  same_setup s s' /\ _client s' = _client s.

(** The same, and the same connected flag. *)
Definition same_client (s s' : state) : Prop :=
  same_wiring s s' /\ _connected s' = _connected s.

(** The events a handler may record: the notification itself, log
    records, callbacks, and the three steps of a subscription. *)
Definition handler_event (e : event) : bool :=
  match e with
  | ENotify _ _ | ECallback _ | ELog _ _
  | ENewSubscription _ | ESubOnPublication _ | ESubscribe _ => true
  | _ => false
  end.

(** The events of a request/response method. *)
Definition request_event (e : event) : bool :=
  match e with
  | EHttp _ | ELog _ _ => true
  | _ => false
  end.

Definition is_request (e : event) : bool :=
  match e with EHttp _ => true | _ => false end.

Definition is_teardown (e : event) : bool :=
  match e with EClientDisconnect => true | _ => false end.

(** The events of the transport's life cycle that only [connect] and
    [disconnect] record. *)
Definition is_lifecycle (e : event) : bool :=
  match e with
  | ECentrifugeClient _ _ | EClientOn _ | EClientConnect | EClientDisconnect => true
  | _ => false
  end.

(** Events that are neither a request nor a teardown. *)
Definition unrelated (e : event) : bool := negb (is_request e) && negb (is_teardown e).

(** A run that keeps what [keeps] says and records only events that [ok]
    admits. *)
Definition within (keeps : state -> state -> Prop) (ok : event -> bool) : progress :=
  fun s s' evs => keeps s s' /\ forallb ok evs = true.

(** [n] slashes. *)
Fixpoint slashes (n : nat) : string :=
  match n with
  | O => EmptyString
  | S n' => String "/"%char (slashes n')
  end.

Fixpoint last_char (s : string) : option ascii :=
  match s with
  | EmptyString => None
  | String c EmptyString => Some c
  | String _ rest => last_char rest
  end.

End Footprints.

(** The server answers with a success and a body that is no credentials. *)
Definition answer_tokenless (r : request) : http_result :=
  HttpResponse 200 (Ret (JDict [("url", JStr "wss://rt.example/connection")])).

Definition tokenless : Env := scripted answer_tokenless subscribing_ok quiet quiet.

(** A transport that fails to close. *)
Definition stuck : Env :=
  scripted answer_ok subscribing_ok quiet
    (fun w => Done (Raise (ForeignError "CloseError")) w).

(** ** The request/response client

    [src/token_bowl_chat_client/async_client.py], class
    [AsyncTokenBowlClient]: stateless operations over one HTTP client.
    The model keeps the names of the source inside a module of its own,
    since the exception classes share their names with those above. *)

Module Rest.

(** An [httpx.Response], as far as the client reads it: the status code,
    what [json()] gives, and the text. *)
Record response : Type := mkResponse {
  status_code : Z;
  json_result : outcome json;
  text : string
}.

(** What [self._client.request] raises: [httpx.TimeoutException] or one
    of its subclasses, [httpx.NetworkError] or one of its subclasses, or
    anything else. *)
Inductive failure : Type :=
| TimeoutException (what : string)
| NetworkFailure (what : string)
| OtherFailure (cls : string).

(** The message of an exception: a literal of the source, [str] of the
    decoded error body, the text of the response, or [f"HTTP {status}"]. *)
Inductive message : Type :=
| Literal (s : string)
| OfJson (error_data : json)
| OfText (t : string)
| OfStatus (status : Z).

(** The exceptions the operations raise.  The first eight are the classes
    of the package ([TimeoutError] and [NetworkError] are raised [from]
    their cause); [HTTPStatusError] is the HTTP library's own, raised by
    [raise_for_status]; [Uncaught] is any other exception of the HTTP
    library, which no [except] clause of [_request] catches; [Undecoded]
    is what [response.json()] or a model constructor raises in an
    operation. *)
Inductive error : Type :=
| AuthenticationError (m : message) (r : option response)
| NotFoundError (m : message) (r : response)
| ConflictError (m : message) (r : response)
| ValidationError (m : message) (r : response)
| RateLimitError (m : message) (r : response)
| ServerError (m : message) (r : response)
| TimeoutError (cause : failure)
| NetworkError (cause : failure)
| HTTPStatusError (r : response)
| Uncaught (cause : failure)
| Undecoded (e : exn).

Inductive result (A : Type) : Type :=
| Ok (a : A)
| Err (e : error).
Arguments Ok {A} a.
Arguments Err {A} e.

(** The attributes of the client; [timeout] is handed to the HTTP client
    at construction. *)
Record client : Type := mkClient {
  base_url : string;
  api_key : option string;
  timeout : Z
}.

(** [__init__] (lines 40-56). *)
Definition init (url : string) (key : option string) (seconds : Z) : client :=
  mkClient (rstrip_slash url) key seconds.

(** One call of [self._client.request]. *)
Record call : Type := mkCall {
  call_method : http_method;
  call_url : string;
  call_headers : list (string * string);
  call_json : option json;
  call_params : list (string * json)
}.

Fixpoint header (name : string) (headers : list (string * string)) : option string :=
  match headers with
  | [] => None
  | (k, v) :: rest => if String.eqb k name then Some v else header name rest
  end.

(** [_get_headers] (lines 70-82). *)
Definition _get_headers (c : client) : list (string * string) :=
  let headers := [("Content-Type", "application/json")] in
  if truthy (api_key c)
  then (headers ++ [("X-API-Key", key_text (api_key c))])%list
  else headers.

(** The message computed in [_handle_response] (lines 100-104):
    [str(response.json())], and if that raises, [response.text or
    f"HTTP {response.status_code}"]. *)
Definition error_message (r : response) : message :=
  match json_result r with
  | Ret error_data => OfJson error_data
  | Raise _ =>
      match text r with
      | EmptyString => OfStatus (status_code r)
      | t => OfText t
      end
  end.

(** [_handle_response] (lines 84-120). *)
Definition _handle_response (r : response) : result unit :=
  if (status_code r <? 400)%Z then Ok tt
  else
    let m := error_message r in
    if (status_code r =? 401)%Z then Err (AuthenticationError m (Some r))
    else if (status_code r =? 404)%Z then Err (NotFoundError m r)
    else if (status_code r =? 409)%Z then Err (ConflictError m r)
    else if (status_code r =? 422)%Z then Err (ValidationError m r)
    else if (status_code r =? 429)%Z then Err (RateLimitError m r)
    else if (500 <=? status_code r)%Z then Err (ServerError m r)
    else if is_success (status_code r) then Ok tt
    else Err (HTTPStatusError r).

Section Requests.

(** The world outside, and [self._client.request]. *)
Variable world : Type.
Variable transport : call -> world -> (failure + response) * world.

(** The outside world and the calls made so far. *)
Definition session : Type := (world * list call)%type.

(** [_request] (lines 122-160). *)
Definition _request (c : client) (method : http_method) (path : string)
    (requires_auth : bool) (body : option json) (params : list (string * json))
    (s : session) : result response * session :=
  let url := base_url c ++ path in
  let headers := _get_headers c in
  if requires_auth && negb (truthy (api_key c)) then
    (Err (AuthenticationError (Literal "API key required for this operation") None), s)
  else
    let sent := mkCall method url headers body params in
    match transport sent (fst s) with
    | (inl (TimeoutException what), w) =>
        (Err (TimeoutError (TimeoutException what)), (w, (snd s ++ [sent])%list))
    | (inl (NetworkFailure what), w) =>
        (Err (NetworkError (NetworkFailure what)), (w, (snd s ++ [sent])%list))
    | (inl (OtherFailure cls), w) =>
        (Err (Uncaught (OtherFailure cls)), (w, (snd s ++ [sent])%list))
    | (inr r, w) =>
        match _handle_response r with
        | Ok _ => (Ok r, (w, (snd s ++ [sent])%list))
        | Err e => (Err e, (w, (snd s ++ [sent])%list))
        end
    end.

(** [response.json()] at the end of an operation. *)
Definition body_of (r : response) : result json :=
  match json_result r with
  | Ret v => Ok v
  | Raise e => Err (Undecoded e)
  end.

(** [Model.model_validate(response.json())]. *)
Definition validated {A} (model_validate : json -> outcome A) (r : response) : result A :=
  match json_result r with
  | Ret v =>
      match model_validate v with
      | Ret a => Ok a
      | Raise e => Err (Undecoded e)
      end
  | Raise e => Err (Undecoded e)
  end.

Definition and_then {A B} (r : result A * session) (k : A -> result B)
    : result B * session :=
  match r with
  | (Ok a, s) => (k a, s)
  | (Err e, s) => (Err e, s)
  end.

(** The query of [get_messages] and [get_direct_messages]. *)
Definition page_params (limit offset : Z) (since : option string)
    : list (string * json) :=
  ([("limit", JNum limit); ("offset", JNum offset)] ++
   match since with
   | Some t => [("since", JStr t)]
   | None => []
   end)%list.

Section Models.

(** [PaginatedMessagesResponse.model_validate], [MessageResponse
    .model_validate], and [SendMessageRequest(...).model_dump(
    exclude_none=True)]; the models are declared in [models.py]. *)
Variable page : Type.
Variable chat_message : Type.
Variable PaginatedMessagesResponse : json -> outcome page.
Variable MessageResponse : json -> outcome chat_message.
Variable SendMessageRequest : string -> option string -> outcome json.

(** [send_message] (lines 189-215). *)
Definition send_message (c : client) (content : string) (to_username : option string)
    (s : session) : result chat_message * session :=
  match SendMessageRequest content to_username with
  | Raise e => (Err (Undecoded e), s)
  | Ret dumped =>
      and_then (_request c POST "/messages" true (Some dumped) [] s)
        (validated MessageResponse)
  end.

(** [get_messages] (lines 217-247). *)
Definition get_messages (c : client) (limit offset : Z) (since : option string)
    (s : session) : result page * session :=
  and_then (_request c GET "/messages" true None (page_params limit offset since) s)
    (validated PaginatedMessagesResponse).

(** [get_direct_messages] (lines 249-279). *)
Definition get_direct_messages (c : client) (limit offset : Z) (since : option string)
    (s : session) : result page * session :=
  and_then
    (_request c GET "/messages/direct" true None (page_params limit offset since) s)
    (validated PaginatedMessagesResponse).

End Models.

(** [get_users] (lines 281-291), [get_online_users] (lines 293-303) and
    [health_check] (lines 305-312). *)
Definition get_users (c : client) (s : session) : result json * session :=
  and_then (_request c GET "/users" true None [] s) body_of.

Definition get_online_users (c : client) (s : session) : result json * session :=
  and_then (_request c GET "/users/online" true None [] s) body_of.

Definition health_check (c : client) (s : session) : result json * session :=
  and_then (_request c GET "/health" false None [] s) body_of.

End Requests.

(** What an operation that needs a key raises without one. *)
Definition refused {A} : result A :=
  Err (AuthenticationError (Literal "API key required for this operation") None).

(** A server for trying the client: it answers every call with the given
    status and an empty JSON object. *)
Definition answering (status : Z) (sent : call) (w : unit)
    : (failure + response) * unit :=
  (inr (mkResponse status (Ret (JDict [])) ""), w).

Definition unreachable (sent : call) (w : unit) : (failure + response) * unit :=
  (inl (NetworkFailure "connection refused"), w).

(** The client of the tests, with and without a key. *)
Definition test_client : client :=
  init "http://test.example.com/" (Some "test-key-123") 30.

Definition anonymous : client := init "http://test.example.com" None 30.

End Rest.

(** * Properties *)

Open Scope list_scope.

(** ** Following a property through the methods

    A property of runs that holds of the elementary steps, and of the
    delivery of a notification, holds of every method. *)

Section Tracking.

Context {E : Env}.

Variable P : progress.

Hypothesis P_steady : steady P.
Hypothesis P_dispatch : forall n, tracked P (dispatch n).

Let P_refl := steady_refl P P_steady.
Let P_trans := steady_trans P P_steady.
Let P_ext := steady_ext P P_steady.
Let P_info := steady_info P P_steady.
Let P_client := steady_client P P_steady.
Let P_plain := steady_plain P P_steady.

Lemma grows_refl (st : state) : grows P st st.
Proof. exists []. split; [ now rewrite app_nil_r | apply P_refl ]. Qed.

Lemma grows_trans (s1 s2 s3 : state) :
  grows P s1 s2 -> grows P s2 s3 -> grows P s1 s3.
Proof.
  intros [e1 [H1 P1]] [e2 [H2 P2]]. exists (e1 ++ e2). split.
  - rewrite H2, H1. now rewrite app_assoc.
  - eapply P_trans; eassumption.
Qed.

Lemma grows_ext (st : state) (w : world) : grows P st (set_ext w st).
Proof. exists []. split; [ now rewrite app_nil_r | apply P_ext ]. Qed.

Lemma tracked_ret {A} (a : A) : tracked P (ret a).
Proof. intros st. apply grows_refl. Qed.

Lemma tracked_raise {A} (e : exn) : tracked P (@raise _ A e).
Proof. intros st. apply grows_refl. Qed.

Lemma tracked_lift {A} (o : outcome A) : tracked P (lift o).
Proof. intros st. apply grows_refl. Qed.

Lemma tracked_gets {A} (f : state -> A) : tracked P (gets f).
Proof. intros st. apply grows_refl. Qed.

Lemma tracked_bind {A B} (m : M A) (k : A -> M B) :
  tracked P m -> (forall a, tracked P (k a)) -> tracked P (bind m k).
Proof.
  intros Hm Hk st. unfold bind. specialize (Hm st).
  destruct (m st) as [[a | e] st1]; cbn [snd] in *.
  - eapply grows_trans; [ exact Hm | apply Hk ].
  - exact Hm.
Qed.

Lemma tracked_try_except {A} (m : M A) (h : exn -> M A) :
  tracked P m -> (forall e, tracked P (h e)) -> tracked P (try_except m h).
Proof.
  intros Hm Hh st. unfold try_except. specialize (Hm st).
  destruct (m st) as [[a | e] st1]; cbn [snd] in *.
  - exact Hm.
  - eapply grows_trans; [ exact Hm | apply Hh ].
Qed.

Lemma tracked_for_each {A} (f : A -> M unit) (l : list A) :
  (forall a, tracked P (f a)) -> tracked P (for_each f l).
Proof.
  intros Hf. induction l as [ | x rest IH]; cbn [for_each].
  - apply tracked_ret.
  - apply tracked_bind; [ apply Hf | intros _; exact IH ].
Qed.

Lemma tracked_external {A} (f : world -> outcome A * world) :
  tracked P (external f).
Proof.
  intros st. unfold external. destruct (f (ext st)) as [r w]. cbn [snd].
  apply grows_ext.
Qed.

Lemma tracked_emit (e : event) : plain e = true -> tracked P (emit e).
Proof.
  intros He st. exists [e]. split; [ reflexivity | now apply P_plain ].
Qed.

Lemma tracked_log (l : level) (r : log_record) : tracked P (log l r).
Proof. apply tracked_emit. reflexivity. Qed.

Lemma tracked_set_info (i : option json) : tracked P (modify (set_connection_info i)).
Proof.
  intros st. exists []. split; [ now rewrite app_nil_r | apply P_info ].
Qed.

Lemma tracked_set_client (h : handle) : tracked P (modify (set_client (Some h))).
Proof.
  intros st. exists []. split; [ now rewrite app_nil_r | apply P_client ].
Qed.

Lemma tracked_call_if_set (c : option callback) (what : callback_call) :
  plain (ECallback what) = true -> tracked P (call_if_set c what).
Proof.
  intros Hw. destruct c as [f | ]; cbn [call_if_set].
  - apply tracked_bind; [ now apply tracked_emit | intros _; apply tracked_external ].
  - apply tracked_ret.
Qed.

Lemma tracked_http (r : request) : tracked P (http r).
Proof.
  unfold http. apply tracked_bind; [ now apply tracked_emit | intros _ ].
  intros st. destruct (http_send r (ext st)) as [[e | status body] w].
  - apply grows_ext.
  - destruct (is_success status); apply grows_ext.
Qed.

Ltac track :=
  repeat first
    [ apply tracked_ret | apply tracked_raise | apply tracked_lift
    | apply tracked_gets | apply tracked_external | apply tracked_log
    | apply tracked_http | apply tracked_set_info | apply tracked_set_client
    | apply tracked_emit; reflexivity
    | apply tracked_call_if_set; reflexivity
    | apply tracked_bind; [ | intros ? ]
    | apply tracked_try_except; [ | intros ? ] ].

Lemma tracked_on_publication (data : json) : tracked P (on_publication data).
Proof.
  unfold on_publication. apply tracked_try_except; [ | intros e; track ].
  apply tracked_bind; [ track | intros [f | ]; track ].
Qed.

Lemma tracked_subscribe_channel (channel : json) :
  tracked P (_subscribe_channel channel).
Proof.
  unfold _subscribe_channel. apply tracked_bind; [ track | intros [h | ]; track ].
Qed.

(** What [on_connected] does once the flag is set. *)
Lemma tracked_after_connected :
  tracked P
    (log INFO LogConnected ;;
     cb <- gets on_connect ;;
     call_if_set cb CbConnect ;;
     info <- gets _connection_info ;;
     channels <- lift (subscript info "channels") ;;
     items <- lift (py_iter channels) ;;
     for_each _subscribe_channel items).
Proof.
  track. apply tracked_for_each. intros c. apply tracked_subscribe_channel.
Qed.

(** What [on_disconnected] does once the flag is cleared. *)
Lemma tracked_after_disconnected :
  (forall st, P st (add_event (ECallback CbDisconnect) st) [ECallback CbDisconnect]) ->
  tracked P
    (log INFO LogDisconnected ;;
     cb <- gets on_disconnect ;;
     call_if_set cb CbDisconnect).
Proof.
  intros Hcb. apply tracked_bind; [ track | intros _ ].
  apply tracked_bind; [ track | intros cb ].
  destruct cb as [f | ]; cbn [call_if_set]; [ | track ].
  apply tracked_bind; [ | intros _; track ].
  intros st. exists [ECallback CbDisconnect]. split; [ reflexivity | apply Hcb ].
Qed.

Lemma tracked_on_error_event (error : exn) : tracked P (on_error_event error).
Proof. unfold on_error_event. track. Qed.

Lemma run_await_grows {R} (a : await world R) (st : state) :
  grows P st (snd (run_await a st)).
Proof.
  revert st. induction a as [r w | w n k IH]; intros st; cbn [run_await].
  - cbn [snd]. apply grows_ext.
  - pose proof (P_dispatch n (set_ext w st)) as Hd.
    destruct (dispatch n (set_ext w st)) as [r st1]. cbn [snd] in Hd.
    eapply grows_trans; [ | apply IH ].
    eapply grows_trans; [ | exact Hd ].
    apply grows_ext.
Qed.

Lemma tracked_awaiting {R} (f : world -> await world R) : tracked P (awaiting f).
Proof.
  intros st. unfold awaiting.
  pose proof (run_await_grows (f (ext st)) st) as H.
  destruct (run_await (f (ext st)) st) as [r st1]. exact H.
Qed.

Lemma tracked_connecting (key : option string) : tracked P (connecting key).
Proof. unfold connecting. track. apply tracked_awaiting. Qed.

Lemma tracked_connect : tracked P connect.
Proof.
  unfold connect. apply tracked_bind; [ track | intros key ].
  destruct (negb (truthy key)); [ track | ].
  apply tracked_try_except; [ apply tracked_connecting | intros e; track ].
Qed.

Lemma tracked_disconnect : allows_reset P -> tracked P disconnect.
Proof.
  intros P_reset.
  unfold disconnect. apply tracked_bind; [ track | intros [h | ]; [ | track ] ].
  apply tracked_bind; [ track | intros _ ].
  apply tracked_bind; [ apply tracked_awaiting | intros r ].
  apply tracked_bind; [ track | intros _ ].
  intros st. unfold bind, modify. cbn [snd].
  exists []. split; [ now rewrite app_nil_r | apply P_reset ].
Qed.

Lemma tracked_send_message (content : string) (to_username : option string) :
  tracked P (send_message content to_username).
Proof.
  unfold send_message. apply tracked_bind; [ track | intros key ].
  destruct (negb (truthy key)); track.
Qed.

Lemma tracked_mark_as_read (message_id : string) :
  tracked P (mark_as_read message_id).
Proof.
  unfold mark_as_read. apply tracked_bind; [ track | intros key ].
  destruct (negb (truthy key)); track.
Qed.

Lemma tracked_mark_all_as_read : tracked P mark_all_as_read.
Proof.
  unfold mark_all_as_read. apply tracked_bind; [ track | intros key ].
  destruct (negb (truthy key)); track.
Qed.

Lemma wait_loop_grows (rounds : nat) (start_time : Z) (timeout : pyfloat)
    (st : state) :
  grows P st (snd (wait_loop rounds start_time timeout st)).
Proof.
  revert st. induction rounds as [ | rounds IH]; intros st; cbn [wait_loop].
  - apply grows_refl.
  - destruct (_connected st); [ apply grows_refl | ].
    destruct (loop_time (ext st)) as [now w].
    destruct (exceeds (now - start_time) timeout); [ apply grows_ext | ].
    pose proof (run_await_grows (asyncio_sleep w) (set_ext w st)) as H.
    destruct (run_await (asyncio_sleep w) (set_ext w st)) as [r st1].
    cbn [snd] in H.
    eapply grows_trans; [ | apply IH ].
    eapply grows_trans; [ apply grows_ext | exact H ].
Qed.

Lemma wait_until_connected_grows (rounds : nat) (timeout : pyfloat) (st : state) :
  grows P st (snd (wait_until_connected rounds timeout st)).
Proof.
  unfold wait_until_connected. destruct (loop_time (ext st)) as [start_time w].
  eapply grows_trans; [ apply grows_ext | apply wait_loop_grows ].
Qed.

Lemma finish_grows {A} (a : api) (st : state) (r : outcome A * state) :
  grows P st (snd r) -> grows P st (finish a r).
Proof.
  intros Hg. destruct r as [[x | e] s]; cbn [finish snd] in *.
  - apply grows_trans with (s2 := s); [ exact Hg | ].
    exists [EReturned a]. split; [ reflexivity | now apply P_plain ].
  - apply grows_trans with (s2 := s); [ exact Hg | ].
    exists [ERaised a e]. split; [ reflexivity | now apply P_plain ].
Qed.

Lemma step_grows (o : op) (st : state) :
  allows_reset P -> grows P st (step o st).
Proof.
  intros P_reset.
  destruct o as [ | | c t | i | | rounds timeout | n | data]; cbn [step].
  - apply finish_grows. apply tracked_connect.
  - apply finish_grows. now apply tracked_disconnect.
  - apply finish_grows. apply tracked_send_message.
  - apply finish_grows. apply tracked_mark_as_read.
  - apply finish_grows. apply tracked_mark_all_as_read.
  - pose proof (wait_until_connected_grows rounds timeout st) as Hg.
    destruct (wait_until_connected rounds timeout st) as [[r | ] s];
      cbn [snd] in Hg; [ | exact Hg ].
    apply (finish_grows ApiWaitUntilConnected st (r, s)). exact Hg.
  - apply P_dispatch.
  - apply tracked_on_publication.
Qed.

Lemma run_ops_grows (ops : list op) :
  allows_reset P -> forall st, grows P st (run_ops ops st).
Proof.
  intros P_reset.
  induction ops as [ | o ops IH]; intros st; cbn [run_ops fold_left].
  - apply grows_refl.
  - apply grows_trans with (s2 := step o st);
      [ now apply step_grows | apply IH ].
Qed.

End Tracking.

Section Properties.

Context {E : Env}.

(** ** Requests *)

Lemma http_run (r : request) (st : state) :
  http r st =
  match http_send r (ext st) with
  | (HttpRaises e, w) => (Raise e, set_ext w (add_event (EHttp r) st))
  | (HttpResponse status body, w) =>
      if is_success status
      then (Ret body, set_ext w (add_event (EHttp r) st))
      else (Raise (HTTPStatusError status), set_ext w (add_event (EHttp r) st))
  end.
Proof. reflexivity. Qed.

Lemma bind_gets {A B} (f : state -> A) (k : A -> M B) (st : state) :
  (x <- gets f ;; k x) st = k (f st) st.
Proof. reflexivity. Qed.

(** C5. [connect()] on a client with no API key raises
    [AuthenticationError] at once: the client and the outside world are
    left exactly as they were, so no request has been made. *)
Theorem connect_without_api_key (st : state) :
  truthy (api_key st) = false ->
  connect st =
    (Raise (AuthenticationError "API key is required for WebSocket connection"), st)
  /\ http_requests (trace (snd (connect st))) = http_requests (trace st).
Proof.
  intros Hkey.
  assert (Hrun : connect st =
            (Raise (AuthenticationError "API key is required for WebSocket connection"), st)).
  { unfold connect. rewrite bind_gets, Hkey. reflexivity. }
  rewrite Hrun. split; reflexivity.
Qed.


(** C9. [mark_as_read(message_id)] raises [AuthenticationError] when no
    API key is configured; with a key it always returns, and a failed
    request leaves nothing but an error record in the log. *)
Theorem mark_as_read_fire_and_forget (message_id : string) (st : state) :
  if truthy (api_key st) then
    exists st',
      mark_as_read message_id st = (Ret tt, st') /\
      trace st' = trace st ++ EHttp (read_request message_id st) ::
        match send_failure (fst (http_send (read_request message_id st) (ext st))) with
        | Some e => [ELog ERROR (LogMarkReadFailed e)]
        | None => [ELog DEBUG (LogMarkedRead message_id)]
        end
  else
    mark_as_read message_id st = (Raise (AuthenticationError "API key is required"), st).
Proof.
  unfold mark_as_read, read_request.
  destruct (truthy (api_key st)) eqn:Hkey; rewrite bind_gets, Hkey; cbn [negb];
    [ | reflexivity ].
  unfold try_except. rewrite bind_gets.
  unfold bind at 1. rewrite http_run. cbn [ext add_event].
  destruct (http_send _ (ext st)) as [[e | status body] w]; cbn [fst send_failure].
  - eexists. split; [ reflexivity | ]. cbn. rewrite <- app_assoc. reflexivity.
  - destruct (is_success status); eexists; (split; [ reflexivity | ]);
      cbn; rewrite <- app_assoc; reflexivity.
Qed.

(** ** The connected flag and the notifications *)

Lemma bind_emit {B} (e : event) (k : M B) (st : state) :
  (emit e ;; k) st = k (add_event e st).
Proof. reflexivity. Qed.

Lemma bind_modify {B} (f : state -> state) (k : M B) (st : state) :
  (modify f ;; k) st = k (f st).
Proof. reflexivity. Qed.

Lemma tracked_weaken (P Q : progress) {A} (m : M A) :
  (forall s s' evs, P s s' evs -> Q s s' evs) -> tracked P m -> tracked Q m.
Proof.
  intros HPQ Hm st. destruct (Hm st) as [evs [Htr HP]].
  exists evs. split; [ exact Htr | now apply HPQ ].
Qed.

Lemma notified_app (flag : bool) (e1 e2 : list event) :
  notified flag (e1 ++ e2) = notified (notified flag e1) e2.
Proof. apply fold_left_app. Qed.

Lemma notified_plain (flag : bool) (e : event) :
  plain e = true -> notified flag [e] = flag.
Proof.
  destruct e as [ | | | | | | | | | | held n | | ]; cbn; try reflexivity.
  discriminate.
Qed.

Lemma notified_mono (evs : list event) :
  forall b b' : bool,
  (b = true -> b' = true) -> notified b evs = true -> notified b' evs = true.
Proof.
  induction evs as [ | e evs IH]; intros b b' Hb; cbn [notified fold_left].
  - exact Hb.
  - apply IH.
    destruct e as [ | | | | | | | | | | held [ | | x] | | ]; auto.
Qed.

Lemma notified_split (tr : list event) :
  notified false tr = true ->
  exists before held after,
    tr = before ++ ENotify held NConnected :: after /\
    existsb is_disconnected_notification after = false.
Proof.
  induction tr as [ | e tr IH] using rev_ind.
  - discriminate.
  - rewrite notified_app. intros Hup.
    destruct e as [ | | | | | | | | | | held [ | | x] | | ];
      cbn [notified fold_left] in Hup;
      try (destruct (IH Hup) as [before [held' [after [Htr Hno]]]];
           eexists before, held', (after ++ [_]);
           split; [ rewrite Htr, <- app_assoc; reflexivity
                  | rewrite existsb_app, Hno; reflexivity ]).
    + exists tr, held, []. auto.
    + discriminate.
Qed.

Lemma notified_needs_connected (evs : list event) :
  notified false evs = true -> notified_connected evs = true.
Proof.
  intros Hup. destruct (notified_split evs Hup) as [before [held [after [Htr _]]]].
  subst evs. unfold notified_connected. rewrite existsb_app. cbn.
  apply orb_true_r.
Qed.

Lemma flag_steady : steady flag_follows.
Proof.
  constructor; unfold flag_follows; intros; try reflexivity.
  - rewrite notified_app. congruence.
  - cbn [_connected add_event]. now rewrite notified_plain.
Qed.

Lemma flag_dispatch (n : notification) : tracked flag_follows (dispatch n).
Proof.
  intros st. unfold dispatch. rewrite bind_gets.
  destruct n as [ | | e]; rewrite bind_emit.
  - unfold on_connected. rewrite bind_modify.
    apply (grows_trans _ flag_steady) with
      (s2 := set_connected true (add_event (ENotify (holds_client st) NConnected) st)).
    + exists [ENotify (holds_client st) NConnected]. split; reflexivity.
    + apply (tracked_after_connected _ flag_steady).
  - unfold on_disconnected. rewrite bind_modify.
    apply (grows_trans _ flag_steady) with
      (s2 := set_connected false (add_event (ENotify (holds_client st) NDisconnected) st)).
    + exists [ENotify (holds_client st) NDisconnected]. split; reflexivity.
    + apply (tracked_after_disconnected _ flag_steady).
      intros s. reflexivity.
  - apply (grows_trans _ flag_steady) with
      (s2 := add_event (ENotify (holds_client st) (NError e)) st).
    + exists [ENotify (holds_client st) (NError e)]. split; reflexivity.
    + apply (tracked_on_error_event _ flag_steady).
Qed.

Lemma flag_is_raised (s s' : state) (evs : list event) :
  flag_follows s s' evs -> raised_by_notification s s' evs.
Proof. unfold flag_follows, raised_by_notification. congruence. Qed.

Lemma raised_steady : steady raised_by_notification.
Proof.
  constructor; intros; try (apply flag_is_raised; now apply flag_steady).
  unfold raised_by_notification in *. intros Hup.
  rewrite notified_app.
  apply notified_mono with (b := _connected s2); auto.
Qed.

Lemma raised_reset : allows_reset raised_by_notification.
Proof. intros st Hup. discriminate. Qed.

Lemma raised_dispatch (n : notification) :
  tracked raised_by_notification (dispatch n).
Proof. apply (tracked_weaken flag_follows); [ apply flag_is_raised | apply flag_dispatch ]. Qed.

(** ** Disconnecting *)

Lemma disconnect_callbacks_app (e1 e2 : list event) :
  disconnect_callbacks (e1 ++ e2) = disconnect_callbacks e1 + disconnect_callbacks e2.
Proof. unfold disconnect_callbacks. now rewrite filter_app, length_app. Qed.

Lemma disconnected_notifications_app (e1 e2 : list event) :
  disconnected_notifications (e1 ++ e2) =
  disconnected_notifications e1 + disconnected_notifications e2.
Proof. unfold disconnected_notifications. now rewrite filter_app, length_app. Qed.

Lemma counted_silent (s s' : state) :
  on_disconnect s' = on_disconnect s -> callbacks_counted s s' [].
Proof.
  intros H. split; [ exact H | ]. now destruct (on_disconnect s).
Qed.

Lemma counted_event (st : state) (e : event) :
  is_disconnect_callback e = false -> is_disconnected_notification e = false ->
  callbacks_counted st (add_event e st) [e].
Proof.
  intros Hc Hn. split; [ reflexivity | ].
  unfold disconnect_callbacks, disconnected_notifications. cbn [filter].
  rewrite Hc, Hn. now destruct (on_disconnect st).
Qed.

Lemma counted_steady : steady callbacks_counted.
Proof.
  constructor; intros; try (now apply counted_silent).
  - destruct H as [H1 C1]. destruct H0 as [H2 C2]. split; [ congruence | ].
    rewrite disconnect_callbacks_app, disconnected_notifications_app, C1, C2, H1.
    now destruct (on_disconnect s1).
  - apply counted_event;
      destruct e as [ | | | | | | | | [ | | | ] | | held [ | | x] | | ];
      cbn in *; congruence.
Qed.

Lemma counted_reset : allows_reset callbacks_counted.
Proof. intros st. now apply counted_silent. Qed.

Lemma counted_dispatch (n : notification) : tracked callbacks_counted (dispatch n).
Proof.
  intros st. unfold dispatch. rewrite bind_gets.
  destruct n as [ | | e]; rewrite bind_emit.
  - unfold on_connected. rewrite bind_modify.
    apply (grows_trans _ counted_steady) with
      (s2 := set_connected true (add_event (ENotify (holds_client st) NConnected) st)).
    + exists [ENotify (holds_client st) NConnected]. split; [ reflexivity | ].
      split; [ reflexivity | ]. cbn. now destruct (on_disconnect st).
    + apply (tracked_after_connected _ counted_steady).
  - unfold on_disconnected. rewrite bind_modify. unfold log. rewrite bind_emit.
    rewrite bind_gets. cbn [on_disconnect set_connected add_event].
    destruct (on_disconnect st) as [f | ] eqn:Hcb; cbn [call_if_set].
    + rewrite bind_emit. unfold external. cbn [ext add_event set_connected].
      destruct (f (ext st)) as [r w]. cbn [snd].
      exists [ENotify (holds_client st) NDisconnected; ELog INFO LogDisconnected;
              ECallback CbDisconnect].
      split; [ cbn; now rewrite <- !app_assoc | ].
      split; [ reflexivity | ]. rewrite Hcb. reflexivity.
    + cbn [ret snd].
      exists [ENotify (holds_client st) NDisconnected; ELog INFO LogDisconnected].
      split; [ cbn; now rewrite <- !app_assoc | ].
      split; [ reflexivity | ]. rewrite Hcb. reflexivity.
  - apply (grows_trans _ counted_steady) with
      (s2 := add_event (ENotify (holds_client st) (NError e)) st).
    + exists [ENotify (holds_client st) (NError e)]. split; [ reflexivity | ].
      now apply counted_event.
    + apply (tracked_on_error_event _ counted_steady).
Qed.

(** [disconnect()] on a client that holds a transport client. *)
Lemma disconnect_run (h : handle) (st : state) :
  _client st = Some h ->
  disconnect st =
    let (r, s) := run_await (client_disconnect h (ext st))
                    (add_event EClientDisconnect st) in
    match r with
    | Ret _ => (Ret tt, set_connected false (set_client None s))
    | Raise e => (Raise e, s)
    end.
Proof.
  intros Hc. unfold disconnect. rewrite bind_gets, Hc, bind_emit.
  unfold bind at 1, awaiting. cbn [ext add_event].
  destruct (run_await _ _) as [[[] | e] s]; reflexivity.
Qed.

Lemma disconnect_idle (st : state) :
  _client st = None -> disconnect st = (Ret tt, st).
Proof. intros Hc. unfold disconnect. now rewrite bind_gets, Hc. Qed.

(** C3, as the code has it.  [disconnect()] on a client that holds no
    transport client does nothing.  When a call returns, the client holds
    no transport client (and is not connected, if it held one before), so
    that a second call in a row does nothing.  [disconnect()] does not
    invoke the disconnect callback itself: over two calls in a row the
    callback, if one is set, is invoked exactly once for every
    disconnected notification that the transport delivers meanwhile,
    whatever the connected flag was. *)
Theorem disconnect_idempotent (st : state) :
  (_client st = None -> disconnect st = (Ret tt, st)) /\
  (fst (disconnect st) = Ret tt ->
   _client (snd (disconnect st)) = None /\
   (holds_client st = true -> connected (snd (disconnect st)) = false) /\
   disconnect (snd (disconnect st)) = (Ret tt, snd (disconnect st))) /\
  exists evs,
    trace (snd (disconnect (snd (disconnect st)))) = trace st ++ evs /\
    disconnect_callbacks evs =
      match on_disconnect st with
      | Some _ => disconnected_notifications evs
      | None => 0
      end.
Proof.
  split; [ apply disconnect_idle | ]. split.
  - intros Hret.
    assert (Hnone : _client (snd (disconnect st)) = None /\
                    (holds_client st = true -> connected (snd (disconnect st)) = false)).
    { unfold holds_client. destruct (_client st) as [h | ] eqn:Hc.
      - rewrite (disconnect_run h st Hc) in *.
        destruct (run_await _ _) as [[[] | e] s]; cbn [fst snd] in *;
          [ split; reflexivity | discriminate ].
      - rewrite (disconnect_idle st Hc). cbn [snd].
        split; [ exact Hc | discriminate ]. }
    destruct Hnone as [Hnone Hdown].
    split; [ exact Hnone | ]. split; [ exact Hdown | ].
    now apply disconnect_idle.
  - pose proof (tracked_disconnect _ counted_steady counted_dispatch counted_reset)
      as Hd.
    destruct (grows_trans _ counted_steady _ _ _ (Hd st) (Hd (snd (disconnect st))))
      as [evs [Htr [_ Hcount]]].
    exists evs. split; [ exact Htr | exact Hcount ].
Qed.

(** ** Connecting *)



(** C2, as the code has it.  With an API key, a bootstrap request that
    fails makes [connect()] raise [NetworkError] wrapping the cause,
    whether the call itself raised (no connection, timeout) or the
    server answered with a status that is not a success (401 and 5xx
    among them). *)
Theorem connect_bootstrap_failure (st : state) (e : exn) :
  truthy (api_key st) = true ->
  send_failure (fst (http_send (bootstrap_request st) (ext st))) = Some e ->
  fst (connect st) = Raise (NetworkError "Failed to connect to Centrifugo" e).
Proof.
  intros Hkey Hfail. unfold connect, connecting, bootstrap_request in *.
  rewrite bind_gets, Hkey. cbn [negb]. unfold try_except.
  rewrite bind_gets. unfold bind at 1. rewrite http_run. cbn [ext add_event].
  destruct (http_send _ (ext st)) as [[x | status body] w]; cbn [fst send_failure] in Hfail.
  - inversion Hfail. reflexivity.
  - destruct (is_success status); [ discriminate | ].
    inversion Hfail. reflexivity.
Qed.

(** ** Subscribing on connection *)








(** ** Publications *)

Lemma delivered_app (e1 e2 : list event) :
  delivered (e1 ++ e2) = delivered e1 ++ delivered e2.
Proof. apply flat_map_app. Qed.

(** What the handler records for one publication. *)
Lemma on_publication_run (data : json) (st : state) :
  exists st',
    on_publication data st = (Ret tt, st') /\
    on_message st' = on_message st /\
    trace st' =
      trace st ++
      match on_message st with
      | None => []
      | Some f =>
          match data with
          | JDict fields =>
              match MessageResponse fields with
              | Raise e => [ELog ERROR (LogPublicationError e)]
              | Ret m =>
                  ECallback (CbMessage m) ::
                  match fst (f m (ext st)) with
                  | Ret _ => []
                  | Raise e => [ELog ERROR (LogPublicationError e)]
                  end
              end
          | _ =>
              [ELog ERROR
                 (LogPublicationError (TypeError "argument after ** must be a mapping"))]
          end
      end.
Proof.
  unfold on_publication, try_except. rewrite bind_gets.
  destruct (on_message st) as [f | ] eqn:Hcb.
  - unfold bind at 1, lift at 1.
    destruct data as [ | b | z | s | items | fields]; cbn [unpack_kwargs];
      try (eexists; split; [ reflexivity | ]; cbn; auto).
    unfold bind at 1, lift at 1.
    destruct (MessageResponse fields) as [m | e].
    + rewrite bind_emit. unfold external. cbn [ext add_event].
      destruct (f m (ext st)) as [[[] | e] w]; cbn [fst].
      * eexists. split; [ reflexivity | ]. cbn. auto.
      * eexists. split; [ reflexivity | ]. cbn. rewrite <- app_assoc. auto.
    + eexists. split; [ reflexivity | ]. cbn. auto.
  - eexists. split; [ reflexivity | ]. cbn. rewrite app_nil_r. auto.
Qed.

Lemma publications_run (ds : list json) :
  forall st,
  exists evs,
    trace (run_ops (map OpPublication ds) st) = trace st ++ evs /\
    delivered evs =
      match on_message st with Some _ => accepted ds | None => [] end.
Proof.
  induction ds as [ | d ds IH]; intros st; cbn [map run_ops fold_left].
  - exists []. rewrite app_nil_r. destruct (on_message st); auto.
  - cbn [step].
    destruct (on_publication_run d st) as [st1 [Hrun [Hcb Htr]]].
    rewrite Hrun. cbn [snd].
    destruct (IH st1) as [evs [Ht Hd]]. fold (run_ops (map OpPublication ds) st1).
    rewrite Ht, Htr, <- app_assoc. eexists. split; [ reflexivity | ].
    rewrite delivered_app, Hd, Hcb.
    destruct (on_message st) as [f | ]; [ | reflexivity ].
    unfold accepted. cbn [flat_map]. f_equal.
    destruct d as [ | b | z | s | items | fields]; try reflexivity.
    destruct (MessageResponse fields) as [m | e]; cbn; [ | reflexivity ].
    destruct (fst (f m (ext st))); reflexivity.
Qed.

(** C6. The publication handler never raises.  With a message callback
    set, a payload that is a mapping from whose fields the message can be
    built reaches the callback, and an exception of the callback leaves
    an error record; any other payload leaves an error record and reaches
    nobody.  Over any sequence of publications the callback receives
    exactly the messages of the payloads that can be built, in order; in
    particular a payload that cannot be built does not keep the next one
    from the callback. *)
Theorem publications_are_contained :
  (forall (data : json) (st : state),
     exists st' evs,
       on_publication data st = (Ret tt, st') /\
       trace st' = trace st ++ evs /\
       match on_message st with
       | None => evs = []
       | Some f =>
           match data with
           | JDict fields =>
               match MessageResponse fields with
               | Raise e => evs = [ELog ERROR (LogPublicationError e)]
               | Ret m =>
                   evs =
                     ECallback (CbMessage m) ::
                     match fst (f m (ext st)) with
                     | Ret _ => []
                     | Raise e => [ELog ERROR (LogPublicationError e)]
                     end
               end
           | _ => exists e, evs = [ELog ERROR (LogPublicationError e)]
           end
       end) /\
  (forall (ds : list json) (st : state),
     exists evs,
       trace (run_ops (map OpPublication ds) st) = trace st ++ evs /\
       delivered evs =
         match on_message st with Some _ => accepted ds | None => [] end) /\
  (forall (bad : json) (fields : list (string * json)) (m : message)
          (f : message -> callback) (st : state),
     on_message st = Some f ->
     accepted [bad] = [] ->
     MessageResponse fields = Ret m ->
     exists evs,
       trace (run_ops [OpPublication bad; OpPublication (JDict fields)] st) =
         trace st ++ evs /\
       delivered evs = [m]).
Proof.
  split; [ | split ].
  - intros data st. destruct (on_publication_run data st) as [st' [H1 [_ H2]]].
    exists st'. eexists. split; [ exact H1 | ]. split; [ exact H2 | ].
    destruct (on_message st) as [f | ]; [ | reflexivity ].
    destruct data as [ | b | z | s | items | fields]; try (eexists; reflexivity).
    destruct (MessageResponse fields) as [m | e]; reflexivity.
  - intros ds st. apply publications_run.
  - intros bad fields m f st Hcb Hbad Hm.
    destruct (publications_run [bad; JDict fields] st) as [evs [Htr Hd]].
    exists evs. split; [ exact Htr | ].
    rewrite Hd, Hcb.
    change (accepted [bad; JDict fields])
      with (accepted ([bad] ++ [JDict fields])).
    unfold accepted in *. rewrite flat_map_app, Hbad. cbn. now rewrite Hm.
Qed.

(** ** Waiting for the connection *)

Lemma wait_loop_result (start_time : Z) (timeout : pyfloat) (rounds : nat) :
  forall (st st' : state) (r : outcome unit),
  wait_loop rounds start_time timeout st = (Some r, st') ->
  (r = Ret tt /\ connected st' = true) \/
  (r = Raise (TimeoutError "Connection timeout") /\ connected st' = false /\
   exists s,
     st' = set_ext (snd (loop_time (ext s))) s /\
     exceeds (fst (loop_time (ext s)) - start_time) timeout = true).
Proof.
  induction rounds as [ | rounds IH]; intros st st' r; cbn [wait_loop].
  - discriminate.
  - destruct (_connected st) eqn:Hc.
    + intros H. inversion H; subst. left. auto.
    + destruct (loop_time (ext st)) as [now w] eqn:Hread.
      destruct (exceeds (now - start_time) timeout) eqn:Hlate.
      * intros H. inversion H; subst. right.
        split; [ reflexivity | ]. split; [ exact Hc | ].
        exists st. rewrite Hread. auto.
      * destruct (run_await (asyncio_sleep w) (set_ext w st)) as [u s1]. apply IH.
Qed.

(** With a timeout that nothing exceeds, a client that stays down is
    waited for as long as there are rounds. *)
Lemma wait_loop_never (start_time : Z) (timeout : pyfloat) (rounds : nat) :
  (forall elapsed, exceeds elapsed timeout = false) ->
  never_connects ->
  forall st : state,
  connected st = false ->
  fst (wait_loop rounds start_time timeout st) = None.
Proof.
  intros Hnot Hnever.
  induction rounds as [ | rounds IH]; intros st Hd; cbn [wait_loop].
  - reflexivity.
  - unfold connected in Hd. rewrite Hd.
    destruct (loop_time (ext st)) as [now w]. rewrite Hnot.
    pose proof (Hnever (set_ext w st) Hd) as Hs. cbn [ext set_ext] in Hs.
    destruct (run_await (asyncio_sleep w) (set_ext w st)) as [u s1].
    cbn [snd] in Hs. now apply IH.
Qed.

Lemma wait_loop_stays_down (start_time : Z) (timeout : pyfloat) (rounds : nat) :
  never_connects ->
  forall st : state,
  connected st = false ->
  connected (snd (wait_loop rounds start_time timeout st)) = false.
Proof.
  intros Hnever. induction rounds as [ | rounds IH]; intros st Hd; cbn [wait_loop].
  - exact Hd.
  - unfold connected in Hd. rewrite Hd.
    destruct (loop_time (ext st)) as [now w].
    destruct (exceeds (now - start_time) timeout); [ exact Hd | ].
    pose proof (Hnever (set_ext w st) Hd) as Hs. cbn [ext set_ext] in Hs.
    destruct (run_await (asyncio_sleep w) (set_ext w st)) as [u s1].
    cbn [snd] in Hs. now apply IH.
Qed.

Section Clock.

Hypothesis time_passes : clock_advances.

Lemma wait_loop_ends (start_time t : Z) (n : nat) :
  forall st : state,
  (t - (fst (loop_time (ext st)) - start_time) < Z.of_nat n)%Z ->
  exists r st', wait_loop (S n) start_time (Finite t) st = (Some r, st').
Proof.
  induction n as [ | n IH]; intros st Hn; cbn [wait_loop].
  - destruct (_connected st); [ eauto | ].
    destruct (loop_time (ext st)) as [now w]. cbn [fst] in Hn. cbn [exceeds].
    destruct (t <? now - start_time)%Z eqn:Hlate; [ eauto | ].
    apply Z.ltb_ge in Hlate. lia.
  - destruct (_connected st); [ eauto | ].
    pose proof (time_passes st) as Hp.
    destruct (loop_time (ext st)) as [now w]. cbn [fst snd] in Hn, Hp. cbn [exceeds].
    destruct (t <? now - start_time)%Z eqn:Hlate; [ eauto | ].
    destruct (run_await (asyncio_sleep w) (set_ext w st)) as [u s1]. cbn [snd] in Hp.
    apply IH. lia.
Qed.

Lemma wait_ends (timeout : pyfloat) (st : state) :
  match timeout with
  | PlusInfinity | NaN => True
  | _ => exists rounds r st', wait_until_connected rounds timeout st = (Some r, st')
  end.
Proof.
  unfold wait_until_connected.
  destruct timeout as [t | | | ]; try exact I;
    destruct (loop_time (ext st)) as [start_time w].
  - exists (S (Z.to_nat (t - (fst (loop_time w) - start_time) + 1))).
    apply wait_loop_ends. cbn [ext set_ext]. lia.
  - exists 1. cbn [wait_loop]. destruct (_connected (set_ext w st)); [ eauto | ].
    destruct (loop_time (ext (set_ext w st))) as [now w']. cbn [exceeds]. eauto.
Qed.

End Clock.

(** C8, as the code has it.  [wait_until_connected(timeout)] returns only
    with the client connected, and at once if the client is connected
    already; it raises only [TimeoutError], with the client not connected
    and after a reading of the clock that exceeds the reading taken at
    the call by more than [timeout].  If the timeout is a finite number
    or negative infinity and the clock moves on during every sleep, the
    call comes to an end, and on a client that never becomes connected it
    raises [TimeoutError].  If the timeout is positive infinity or NaN,
    the call on a client that never becomes connected neither returns nor
    raises, however long it runs. *)
Theorem wait_until_connected_returns_or_times_out (timeout : pyfloat) (st : state) :
  (forall rounds r st',
     wait_until_connected rounds timeout st = (Some r, st') ->
     (r = Ret tt /\ connected st' = true) \/
     (r = Raise (TimeoutError "Connection timeout") /\ connected st' = false /\
      exists s,
        st' = set_ext (snd (loop_time (ext s))) s /\
        exceeds (fst (loop_time (ext s)) - fst (loop_time (ext st))) timeout = true)) /\
  (connected st = true ->
   forall rounds,
     wait_until_connected (S rounds) timeout st =
       (Some (Ret tt), set_ext (snd (loop_time (ext st))) st)) /\
  match timeout with
  | PlusInfinity | NaN =>
      never_connects -> connected st = false ->
      forall rounds, fst (wait_until_connected rounds timeout st) = None
  | _ =>
      clock_advances ->
      (exists rounds r st', wait_until_connected rounds timeout st = (Some r, st')) /\
      (never_connects -> connected st = false ->
       exists rounds st',
         wait_until_connected rounds timeout st =
           (Some (Raise (TimeoutError "Connection timeout")), st'))
  end.
Proof.
  split; [ | split ].
  - intros rounds r st'. unfold wait_until_connected.
    destruct (loop_time (ext st)) as [start_time w]. cbn [fst].
    apply wait_loop_result.
  - intros Hc rounds. unfold wait_until_connected.
    destruct (loop_time (ext st)) as [start_time w]. cbn [wait_loop snd].
    unfold connected in Hc. cbn [_connected set_ext]. now rewrite Hc.
  - assert (Hraises :
      (exists rounds r st', wait_until_connected rounds timeout st = (Some r, st')) ->
      never_connects -> connected st = false ->
      exists rounds st',
        wait_until_connected rounds timeout st =
          (Some (Raise (TimeoutError "Connection timeout")), st')).
    { intros [rounds [r [st' Hrun]]] Hnever Hd. exists rounds, st'.
      unfold wait_until_connected in *.
      destruct (loop_time (ext st)) as [start_time w].
      pose proof (wait_loop_stays_down start_time timeout rounds Hnever
                    (set_ext w st) Hd) as Hstill.
      rewrite Hrun in Hstill. cbn [snd] in Hstill.
      destruct (wait_loop_result _ _ _ _ _ _ Hrun) as [[_ Hup] | [Hr _]].
      - congruence.
      - rewrite Hrun, Hr. reflexivity. }
    assert (Hwaits : (forall elapsed, exceeds elapsed timeout = false) ->
              never_connects -> connected st = false ->
              forall rounds, fst (wait_until_connected rounds timeout st) = None).
    { intros Hnot Hnever Hd rounds. unfold wait_until_connected.
      destruct (loop_time (ext st)) as [start_time w].
      now apply wait_loop_never. }
    destruct timeout as [t | | | ].
    + intros Hclock. pose proof (wait_ends Hclock (Finite t) st) as Hends.
      split; [ exact Hends | now apply Hraises ].
    + now apply Hwaits.
    + intros Hclock. pose proof (wait_ends Hclock MinusInfinity st) as Hends.
      split; [ exact Hends | now apply Hraises ].
    + now apply Hwaits.
Qed.

(** ** The connected flag over a history *)

Lemma run_ops_app (a b : list op) (st : state) :
  run_ops (a ++ b) st = run_ops b (run_ops a st).
Proof. apply fold_left_app. Qed.

(** C10, as the code has it.  A client is not connected when constructed.
    Over every sequence of method calls, notifications and publications
    after that, only a connected notification raises the flag: if the
    client is connected at the end, the history holds a connected
    notification with no disconnected notification after it, and between
    any moment at which the client was not connected and the end a
    connected notification has been delivered.  Right after a
    [disconnect()] call that found a transport client and returned, the
    client is not connected; a [disconnect()] call that finds no transport
    client leaves the flag as it was. *)
Theorem connected_only_while_linked (key getenv : option string) (url : string)
    (on_msg : option (message -> callback)) (on_conn on_disc : option callback)
    (on_err : option (exn -> callback)) (w : world) (ops : list op) :
  connected (init key getenv url on_msg on_conn on_disc on_err w) = false /\
  (connected (run_ops ops (init key getenv url on_msg on_conn on_disc on_err w)) = true ->
   exists before held after,
     trace (run_ops ops (init key getenv url on_msg on_conn on_disc on_err w)) =
       before ++ ENotify held NConnected :: after /\
     existsb is_disconnected_notification after = false) /\
  (forall pre post,
     ops = pre ++ post ->
     connected (run_ops pre (init key getenv url on_msg on_conn on_disc on_err w)) = false ->
     connected (run_ops ops (init key getenv url on_msg on_conn on_disc on_err w)) = true ->
     exists evs,
       trace (run_ops ops (init key getenv url on_msg on_conn on_disc on_err w)) =
         trace (run_ops pre (init key getenv url on_msg on_conn on_disc on_err w)) ++ evs /\
       notified_connected evs = true) /\
  (forall pre,
     holds_client (run_ops pre (init key getenv url on_msg on_conn on_disc on_err w)) = true ->
     fst (disconnect (run_ops pre (init key getenv url on_msg on_conn on_disc on_err w)))
       = Ret tt ->
     connected
       (run_ops (pre ++ [OpDisconnect])
          (init key getenv url on_msg on_conn on_disc on_err w)) = false) /\
  (forall pre,
     holds_client (run_ops pre (init key getenv url on_msg on_conn on_disc on_err w)) = false ->
     connected
       (run_ops (pre ++ [OpDisconnect])
          (init key getenv url on_msg on_conn on_disc on_err w)) =
     connected (run_ops pre (init key getenv url on_msg on_conn on_disc on_err w))).
Proof.
  set (st0 := init key getenv url on_msg on_conn on_disc on_err w).
  assert (Hrun : forall l s, grows raised_by_notification s (run_ops l s)).
  { intros l s.
    apply (run_ops_grows _ raised_steady raised_dispatch l raised_reset). }
  split; [ reflexivity | ]. split; [ | split; [ | split ] ].
  - intros Hup. destruct (Hrun ops st0) as [evs [Htr Hraised]].
    specialize (Hraised Hup). cbn in Htr. rewrite Htr.
    now apply notified_split.
  - intros pre post Hops Hdown Hup. subst ops. rewrite run_ops_app in *.
    destruct (Hrun post (run_ops pre st0)) as [evs [Htr Hraised]].
    exists evs. split; [ exact Htr | ].
    specialize (Hraised Hup). unfold connected in Hdown. rewrite Hdown in Hraised.
    now apply notified_needs_connected.
  - intros pre Hheld Hret. rewrite run_ops_app.
    cbn [run_ops fold_left step]. unfold holds_client in Hheld.
    destruct (_client (run_ops pre st0)) as [h | ] eqn:Hc; [ | discriminate ].
    rewrite (disconnect_run h _ Hc) in *.
    destruct (run_await _ _) as [[[] | e] s]; cbn [fst] in Hret; [ | discriminate ].
    reflexivity.
  - intros pre Hidle. rewrite run_ops_app.
    cbn [run_ops fold_left step]. unfold holds_client in Hidle.
    destruct (_client (run_ops pre st0)) as [h | ] eqn:Hc; [ discriminate | ].
    rewrite (disconnect_idle _ Hc). reflexivity.
Qed.

End Properties.

(** * The theorems at work, and where the specification departs from the
    code *)

(** ** Runs of the scripted client *)

Example base_url_is_stripped :
  base_url (keyed calm 0%Z) = "https://api.tokenbowl.ai" /\
  rstrip_slash "/a//" = "/a".
Proof. split; reflexivity. Qed.

Example environment_key_is_used :
  api_key (init (Some "") (Some "from-env") "u" None None None None (0%Z : @world calm))
    = Some "from-env".
Proof. reflexivity. Qed.

(** A handshake that notifies the connection: both channels of the
    bootstrap are subscribed, in the listed order. *)
Example connecting_subscribes_in_order :
  fst (connect (keyed announcing 0%Z)) = Ret tt /\
  connected (joined announcing 0%Z) = true /\
  attempted (trace (joined announcing 0%Z)) = [JStr "room"; JStr "dm:alice"] /\
  subscribed (trace (joined announcing 0%Z)) = [JStr "room"; JStr "dm:alice"].
Proof. repeat split; vm_compute; reflexivity. Qed.

(** A payload with no sender, then a complete one: the first leaves an
    error record, the second reaches the callback. *)
Example malformed_then_well_formed :
  delivered (trace (run_ops [OpPublication malformed; OpPublication well_formed]
                      (keyed calm 0%Z))) =
    match well_formed with JDict fields => [fields] | _ => [] end /\
  publication_errors (trace (run_ops [OpPublication malformed; OpPublication well_formed]
                               (keyed calm 0%Z))) =
    [ForeignError "ValidationError"].
Proof. split; vm_compute; reflexivity. Qed.

(** The teardown notifies the disconnection once; the second
    [disconnect()] adds nothing but its own return. *)
Example disconnecting_twice :
  since (joined announcing 0%Z)
    (run_ops [OpDisconnect; OpDisconnect] (joined announcing 0%Z)) =
    [EClientDisconnect; ENotify true NDisconnected; ELog INFO LogDisconnected;
     ECallback CbDisconnect; EReturned ApiDisconnect; EReturned ApiDisconnect].
Proof. vm_compute. reflexivity. Qed.

(** The clock is read at 0, 1, 102, 203 and 304: the fifth reading is the
    first one more than 250 ticks after the first. *)
Example waiting_times_out :
  fst (wait_until_connected 10 (Finite 250) (keyed calm 0%Z)) =
    Some (Raise (TimeoutError "Connection timeout")) /\
  ext (snd (wait_until_connected 10 (Finite 250) (keyed calm 0%Z))) = 305%Z.
Proof. split; vm_compute; reflexivity. Qed.

(** ** The theorems at concrete inputs *)

Lemma connect_without_api_key_witness :
  truthy (api_key keyless) = false /\
  connect keyless =
    (Raise (AuthenticationError "API key is required for WebSocket connection"), keyless).
Proof.
  split; [ reflexivity | ].
  apply (connect_without_api_key keyless). reflexivity.
Defined.


Lemma disconnect_idempotent_witness :
  fst (disconnect (joined announcing 0%Z)) = Ret tt /\
  _client (snd (disconnect (joined announcing 0%Z))) = None /\
  disconnect (snd (disconnect (joined announcing 0%Z))) =
    (Ret tt, snd (disconnect (joined announcing 0%Z))).
Proof.
  assert (H1 : fst (disconnect (joined announcing 0%Z)) = Ret tt)
    by (vm_compute; reflexivity).
  split; [ exact H1 | ].
  destruct (disconnect_idempotent (joined announcing 0%Z)) as [_ [Hret _]].
  destruct (Hret H1) as [Hnone [_ Hagain]].
  split; [ exact Hnone | exact Hagain ].
Defined.

(** C3, against the claim.  A client that has connected its transport
    and was never notified of the connection is not connected; its
    [disconnect()] still calls the transport, and the disconnect callback
    is invoked when the transport notifies the disconnection, although
    the client never went from connected to disconnected.  And with a
    transport that notifies the disconnection twice, two calls in a row
    invoke the callback twice. *)
Lemma disconnect_callback_without_transition :
  connected (joined late_notice 0%Z) = false /\
  since (joined late_notice 0%Z) (snd (disconnect (joined late_notice 0%Z))) =
    [EClientDisconnect; ENotify true NDisconnected; ELog INFO LogDisconnected;
     ECallback CbDisconnect] /\
  disconnect_callbacks
    (since (joined repeating 0%Z)
       (run_ops [OpDisconnect; OpDisconnect] (joined repeating 0%Z))) = 2.
Proof. repeat split; vm_compute; reflexivity. Qed.



Lemma connect_bootstrap_failure_witness :
  fst (connect (keyed (rejecting 401) 0%Z)) =
    Raise (NetworkError "Failed to connect to Centrifugo" (HTTPStatusError 401)).
Proof.
  apply (connect_bootstrap_failure (keyed (rejecting 401) 0%Z)); reflexivity.
Defined.

(** C2, against the claim: a key rejected with 401 and a server failure
    503 both come out of [connect()] as [NetworkError], not as
    [AuthenticationError] and [ServerError]. *)
Lemma rejected_key_raises_network_error :
  fst (connect (keyed (rejecting 401) 0%Z)) =
    Raise (NetworkError "Failed to connect to Centrifugo" (HTTPStatusError 401)) /\
  (forall msg, fst (connect (keyed (rejecting 401) 0%Z)) <> Raise (AuthenticationError msg)) /\
  fst (connect (keyed (rejecting 503) 0%Z)) =
    Raise (NetworkError "Failed to connect to Centrifugo" (HTTPStatusError 503)) /\
  (forall msg, fst (connect (keyed (rejecting 503) 0%Z)) <> Raise (ServerError msg)).
Proof.
  split; [ reflexivity | ]. split; [ intros msg; vm_compute; discriminate | ].
  split; [ reflexivity | ]. intros msg; vm_compute; discriminate.
Qed.



Lemma publications_are_contained_witness :
  exists evs,
    trace (run_ops [OpPublication malformed; OpPublication well_formed] (keyed calm 0%Z)) =
      trace (keyed calm 0%Z) ++ evs /\
    delivered evs =
      [[("id", JStr "msg-1"); ("from_username", JStr "alice");
        ("to_username", JNull); ("content", JStr "Hello!");
        ("message_type", JStr "room");
        ("timestamp", JStr "2025-10-16T12:00:00Z")]].
Proof.
  assert (H1 : on_message (keyed calm 0%Z) = Some (fun _ => silent)) by reflexivity.
  assert (H2 : accepted (E := calm) [malformed] = []) by (vm_compute; reflexivity).
  assert (H3 : MessageResponse (Env := calm)
                 [("id", JStr "msg-1"); ("from_username", JStr "alice");
                  ("to_username", JNull); ("content", JStr "Hello!");
                  ("message_type", JStr "room");
                  ("timestamp", JStr "2025-10-16T12:00:00Z")] =
               Ret [("id", JStr "msg-1"); ("from_username", JStr "alice");
                    ("to_username", JNull); ("content", JStr "Hello!");
                    ("message_type", JStr "room");
                    ("timestamp", JStr "2025-10-16T12:00:00Z")])
    by (vm_compute; reflexivity).
  exact (proj2 (proj2 (publications_are_contained (E := calm)))
           malformed _ _ _ (keyed calm 0%Z) H1 H2 H3).
Defined.

Lemma wait_until_connected_returns_or_times_out_witness :
  exists rounds st',
    wait_until_connected rounds (Finite 250) (keyed calm 0%Z) =
      (Some (Raise (TimeoutError "Connection timeout")), st').
Proof.
  assert (Hclock : clock_advances (E := calm)).
  { intros s. cbn. lia. }
  assert (Hnever : never_connects (E := calm)).
  { intros s Hs. exact Hs. }
  destruct (wait_until_connected_returns_or_times_out (Finite 250) (keyed calm 0%Z))
    as [_ [_ Hends]].
  destruct (Hends Hclock) as [_ Hraises].
  apply Hraises; [ exact Hnever | reflexivity ].
Defined.

(** C8, against the claim: a client that never becomes connected, waited
    for with a timeout of infinity or NaN.  However many rounds the loop
    is given, it is still waiting: the call neither returns nor raises
    [TimeoutError]. *)
Lemma unbounded_timeout_never_raises :
  connected (keyed calm 0%Z) = false /\
  never_connects (E := calm) /\
  (forall rounds,
     fst (wait_until_connected rounds PlusInfinity (keyed calm 0%Z)) = None) /\
  (forall rounds, fst (wait_until_connected rounds NaN (keyed calm 0%Z)) = None).
Proof.
  assert (Hnever : never_connects (E := calm)).
  { intros s Hs. exact Hs. }
  split; [ reflexivity | ]. split; [ exact Hnever | ].
  split; intros rounds; unfold wait_until_connected;
    destruct (loop_time (ext (keyed calm 0%Z))) as [start_time w];
    apply wait_loop_never; auto.
Qed.

Lemma connected_only_while_linked_witness :
  connected
    (run_ops ([OpConnect; OpNotify NConnected; OpPublication well_formed;
               OpMarkAllAsRead] ++ [OpDisconnect]) (keyed calm 0%Z)) = false.
Proof.
  destruct (connected_only_while_linked (E := calm) (Some "k") None
              "https://api.tokenbowl.ai/"
              (Some (fun _ => silent)) (Some silent) (Some silent)
              (Some (fun _ => silent)) 0%Z session) as [_ [_ [_ [Hlast _]]]].
  apply Hlast; vm_compute; reflexivity.
Defined.

(** C10, against the claim.  A second [connect()] replaces the transport
    client and leaves the first one alive; after [disconnect()] the first
    one notifies its connection, and a further [disconnect()] finds no
    transport client and returns at once: the client is connected right
    after a [disconnect()] call that returned.  And a [disconnect()] whose
    teardown raises leaves a connected client connected. *)
Lemma stray_notification_outlives_disconnect :
  connected (run_ops overlapping (keyed calm 0%Z)) = true /\
  last (trace (run_ops overlapping (keyed calm 0%Z))) (EReturned ApiConnect) =
    EReturned ApiDisconnect /\
  fst (disconnect (joined clinging 0%Z)) = Raise (ForeignError "CloseError") /\
  connected (run_ops [OpConnect; OpDisconnect] (keyed clinging 0%Z)) = true.
Proof. repeat split; vm_compute; reflexivity. Qed.

(** * Further properties of the real-time client *)

(** ** Sequencing, for any reflexive and transitive property of runs *)

Section Sequencing.

Context {E : Env}.

Variable P : progress.

Hypothesis P_refl : forall st, P st st [].
Hypothesis P_trans : forall s1 s2 s3 e1 e2,
  P s1 s2 e1 -> P s2 s3 e2 -> P s1 s3 (e1 ++ e2).

Lemma chain_refl (st : state) : grows P st st.
Proof. exists []. split; [ now rewrite app_nil_r | apply P_refl ]. Qed.

Lemma chain_trans (s1 s2 s3 : state) :
  grows P s1 s2 -> grows P s2 s3 -> grows P s1 s3.
Proof.
  intros [e1 [H1 P1]] [e2 [H2 P2]]. exists (e1 ++ e2). split.
  - rewrite H2, H1. now rewrite app_assoc.
  - eapply P_trans; eassumption.
Qed.

Lemma seq_ret {A} (a : A) : tracked P (ret a).
Proof. intros st. apply chain_refl. Qed.

Lemma seq_raise {A} (e : exn) : tracked P (@raise _ A e).
Proof. intros st. apply chain_refl. Qed.

Lemma seq_lift {A} (o : outcome A) : tracked P (lift o).
Proof. intros st. apply chain_refl. Qed.

Lemma seq_gets {A} (f : state -> A) : tracked P (gets f).
Proof. intros st. apply chain_refl. Qed.

Lemma seq_bind {A B} (m : M A) (k : A -> M B) :
  tracked P m -> (forall a, tracked P (k a)) -> tracked P (bind m k).
Proof.
  intros Hm Hk st. unfold bind. specialize (Hm st).
  destruct (m st) as [[a | e] st1]; cbn [snd] in *.
  - eapply chain_trans; [ exact Hm | apply Hk ].
  - exact Hm.
Qed.

Lemma seq_try_except {A} (m : M A) (h : exn -> M A) :
  tracked P m -> (forall e, tracked P (h e)) -> tracked P (try_except m h).
Proof.
  intros Hm Hh st. unfold try_except. specialize (Hm st).
  destruct (m st) as [[a | e] st1]; cbn [snd] in *.
  - exact Hm.
  - eapply chain_trans; [ exact Hm | apply Hh ].
Qed.

Lemma seq_for_each {A} (f : A -> M unit) (l : list A) :
  (forall a, tracked P (f a)) -> tracked P (for_each f l).
Proof.
  intros Hf. induction l as [ | x rest IH]; cbn [for_each].
  - apply seq_ret.
  - apply seq_bind; [ apply Hf | intros _; exact IH ].
Qed.

(** After a first step, what is left of a [try] block, or its handler. *)
Lemma seq_try_after {A B} (m : M A) (k : A -> M B) (h : exn -> M B) (st : state) :
  (forall a, tracked P (k a)) -> (forall e, tracked P (h e)) ->
  grows P (snd (m st)) (snd (try_except (bind m k) h st)).
Proof.
  intros Hk Hh. unfold try_except, bind.
  destruct (m st) as [[a | e] s1]; cbn [snd].
  - pose proof (Hk a s1) as Ha.
    destruct (k a s1) as [[b | e] s2]; cbn [snd] in *; [ exact Ha | ].
    eapply chain_trans; [ exact Ha | apply Hh ].
  - apply Hh.
Qed.

End Sequencing.

(** ** What the handlers touch *)

Section Footprint.

Context {E : Env}.

Variable keeps : state -> state -> Prop.
Variable ok : event -> bool.

Hypothesis keeps_refl : forall st, keeps st st.
Hypothesis keeps_trans : forall s1 s2 s3, keeps s1 s2 -> keeps s2 s3 -> keeps s1 s3.
Hypothesis keeps_ext : forall st w, keeps st (set_ext w st).
Hypothesis keeps_event : forall st e, keeps st (add_event e st).
Hypothesis keeps_flag : forall st b, keeps st (set_connected b st).
Hypothesis ok_handler : forall e, handler_event e = true -> ok e = true.

Lemma within_refl (st : state) : within keeps ok st st [].
Proof. split; [ apply keeps_refl | reflexivity ]. Qed.

Lemma within_trans (s1 s2 s3 : state) (e1 e2 : list event) :
  within keeps ok s1 s2 e1 -> within keeps ok s2 s3 e2 ->
  within keeps ok s1 s3 (e1 ++ e2).
Proof.
  intros [K1 O1] [K2 O2]. split.
  - eapply keeps_trans; eassumption.
  - rewrite forallb_app, O1, O2. reflexivity.
Qed.

Lemma foot_emit (e : event) : ok e = true -> tracked (within keeps ok) (emit e).
Proof.
  intros He st. exists [e]. split; [ reflexivity | ].
  split; [ apply keeps_event | cbn; now rewrite He ].
Qed.

Lemma foot_external {A} (f : world -> outcome A * world) :
  tracked (within keeps ok) (external f).
Proof.
  intros st. unfold external. destruct (f (ext st)) as [r w]. cbn [snd].
  exists []. split; [ now rewrite app_nil_r | ].
  split; [ apply keeps_ext | reflexivity ].
Qed.

Lemma foot_flag (b : bool) : tracked (within keeps ok) (modify (set_connected b)).
Proof.
  intros st. exists []. split; [ now rewrite app_nil_r | ].
  split; [ apply keeps_flag | reflexivity ].
Qed.

Ltac foot :=
  repeat first
    [ apply (seq_ret (within keeps ok) within_refl)
    | apply (seq_raise (within keeps ok) within_refl)
    | apply (seq_lift (within keeps ok) within_refl)
    | apply (seq_gets (within keeps ok) within_refl)
    | apply foot_external
    | apply foot_flag
    | apply foot_emit; apply ok_handler; reflexivity
    | apply (seq_bind (within keeps ok) within_trans); [ | intros ? ]
    | apply (seq_try_except (within keeps ok) within_trans); [ | intros ? ] ].

Lemma foot_call_if_set (c : option callback) (what : callback_call) :
  tracked (within keeps ok) (call_if_set c what).
Proof. destruct c as [f | ]; cbn [call_if_set]; foot. Qed.

Lemma foot_subscribe_channel (channel : json) :
  tracked (within keeps ok) (_subscribe_channel channel).
Proof.
  unfold _subscribe_channel, log.
  apply (seq_bind (within keeps ok) within_trans); [ foot | intros [h | ]; foot ].
Qed.

Lemma foot_on_publication (data : json) :
  tracked (within keeps ok) (on_publication data).
Proof.
  unfold on_publication, log.
  apply (seq_try_except (within keeps ok) within_trans); [ | intros e; foot ].
  apply (seq_bind (within keeps ok) within_trans); [ foot | intros [f | ]; foot ].
Qed.

Lemma foot_dispatch (n : notification) : tracked (within keeps ok) (dispatch n).
Proof.
  unfold dispatch.
  apply (seq_bind (within keeps ok) within_trans); [ foot | intros held ].
  apply (seq_bind (within keeps ok) within_trans); [ foot | intros _ ].
  destruct n as [ | | e].
  - unfold on_connected, log. foot.
    + apply foot_call_if_set.
    + apply (seq_for_each (within keeps ok) within_refl within_trans).
      intros c. apply foot_subscribe_channel.
  - unfold on_disconnected, log. foot. apply foot_call_if_set.
  - unfold on_error_event, log. foot. apply foot_call_if_set.
Qed.

Lemma foot_run_await {R} (a : await world R) (st : state) :
  grows (within keeps ok) st (snd (run_await a st)).
Proof.
  revert st. induction a as [r w | w n k IH]; intros st; cbn [run_await].
  - cbn [snd]. exists []. split; [ now rewrite app_nil_r | ].
    split; [ apply keeps_ext | reflexivity ].
  - pose proof (foot_dispatch n (set_ext w st)) as Hd.
    destruct (dispatch n (set_ext w st)) as [r st1]. cbn [snd] in Hd.
    eapply (chain_trans (within keeps ok) within_trans); [ | apply IH ].
    eapply (chain_trans (within keeps ok) within_trans); [ | exact Hd ].
    exists []. split; [ now rewrite app_nil_r | ].
    split; [ apply keeps_ext | reflexivity ].
Qed.

Lemma foot_awaiting {R} (f : world -> await world R) :
  tracked (within keeps ok) (awaiting f).
Proof.
  intros st. unfold awaiting.
  pose proof (foot_run_await (f (ext st)) st) as H.
  destruct (run_await (f (ext st)) st) as [r st1]. exact H.
Qed.

Lemma foot_ext (st : state) (w : world) :
  grows (within keeps ok) st (set_ext w st).
Proof.
  exists []. split; [ now rewrite app_nil_r | ].
  split; [ apply keeps_ext | reflexivity ].
Qed.

Lemma foot_wait_loop (rounds : nat) (start_time : Z) (timeout : pyfloat)
    (st : state) :
  grows (within keeps ok) st (snd (wait_loop rounds start_time timeout st)).
Proof.
  revert st. induction rounds as [ | rounds IH]; intros st; cbn [wait_loop].
  - apply (chain_refl (within keeps ok) within_refl).
  - destruct (_connected st); [ apply (chain_refl (within keeps ok) within_refl) | ].
    destruct (loop_time (ext st)) as [now w].
    destruct (exceeds (now - start_time) timeout); [ apply foot_ext | ].
    pose proof (foot_run_await (asyncio_sleep w) (set_ext w st)) as H.
    destruct (run_await (asyncio_sleep w) (set_ext w st)) as [r st1]. cbn [snd] in H.
    eapply (chain_trans (within keeps ok) within_trans); [ | apply IH ].
    eapply (chain_trans (within keeps ok) within_trans); [ apply foot_ext | exact H ].
Qed.

Lemma foot_wait_until_connected (rounds : nat) (timeout : pyfloat) (st : state) :
  grows (within keeps ok) st (snd (wait_until_connected rounds timeout st)).
Proof.
  unfold wait_until_connected. destruct (loop_time (ext st)) as [start_time w].
  eapply (chain_trans (within keeps ok) within_trans);
    [ apply foot_ext | apply foot_wait_loop ].
Qed.

End Footprint.

Section MoreProperties.

Context {E : Env}.

(** ** What stays the same *)

Lemma same_setup_refl (st : state) : same_setup st st.
Proof. repeat split. Qed.

Lemma same_setup_trans (s1 s2 s3 : state) :
  same_setup s1 s2 -> same_setup s2 s3 -> same_setup s1 s3.
Proof. unfold same_setup. intuition congruence. Qed.

Lemma same_wiring_refl (st : state) : same_wiring st st.
Proof. split; [ apply same_setup_refl | reflexivity ]. Qed.

Lemma same_wiring_trans (s1 s2 s3 : state) :
  same_wiring s1 s2 -> same_wiring s2 s3 -> same_wiring s1 s3.
Proof.
  intros [A1 B1] [A2 B2]. split; [ eapply same_setup_trans; eassumption | congruence ].
Qed.

Lemma same_client_refl (st : state) : same_client st st.
Proof. split; [ apply same_wiring_refl | reflexivity ]. Qed.

Lemma same_client_trans (s1 s2 s3 : state) :
  same_client s1 s2 -> same_client s2 s3 -> same_client s1 s3.
Proof.
  intros [A1 B1] [A2 B2]. split; [ eapply same_wiring_trans; eassumption | congruence ].
Qed.

(** The handlers keep the wiring and record handler events only. *)
Lemma wiring_dispatch (n : notification) :
  tracked (within same_wiring handler_event) (dispatch n).
Proof.
  exact (foot_dispatch same_wiring handler_event same_wiring_refl
           same_wiring_trans (fun s w => same_wiring_refl s)
           (fun s e => same_wiring_refl s) (fun s b => same_wiring_refl s)
           (fun e H => H) n).
Qed.

Lemma wiring_run_await {R} (a : await world R) (st : state) :
  grows (within same_wiring handler_event) st (snd (run_await a st)).
Proof.
  exact (foot_run_await same_wiring handler_event same_wiring_refl
           same_wiring_trans (fun s w => same_wiring_refl s)
           (fun s e => same_wiring_refl s) (fun s b => same_wiring_refl s)
           (fun e H => H) a st).
Qed.

(** X6. Delivering a notification or a publication leaves the
    configuration, the credentials and the transport handle of the client
    as they are, and records nothing but the notification, log records,
    callbacks and subscription steps: a handler never makes an HTTP
    request and never creates, connects or tears down a transport client.
    A publication leaves the connected flag alone as well. *)
Theorem handlers_keep_the_wiring :
  (forall (n : notification) (st : state),
     exists evs,
       trace (snd (dispatch n st)) = trace st ++ evs /\
       same_wiring st (snd (dispatch n st)) /\
       forallb handler_event evs = true) /\
  (forall (data : json) (st : state),
     exists evs,
       trace (snd (on_publication data st)) = trace st ++ evs /\
       same_client st (snd (on_publication data st)) /\
       forallb handler_event evs = true).
Proof.
  split.
  - intros n st. destruct (wiring_dispatch n st) as [evs [Htr [Hk Hok]]].
    exists evs. auto.
  - intros data st.
    destruct (on_publication_run data st) as [st' [Hrun [_ Htr]]].
    rewrite Hrun. cbn [snd]. eexists. split; [ exact Htr | ].
    split.
    + revert Hrun. unfold on_publication, try_except. rewrite bind_gets.
      destruct (on_message st) as [f | ].
      * unfold bind at 1, lift at 1.
        destruct (unpack_kwargs data) as [kwargs | e].
        -- unfold bind at 1, lift at 1.
           destruct (MessageResponse kwargs) as [m | e].
           ++ rewrite bind_emit. unfold external. cbn [ext add_event].
              destruct (f m (ext st)) as [[[] | e] w];
                intros H; inversion H; subst; repeat split.
           ++ intros H; inversion H; subst; repeat split.
        -- intros H; inversion H; subst; repeat split.
      * intros H; inversion H; subst; repeat split.
    + destruct (on_message st) as [f | ]; [ | reflexivity ].
      destruct data as [ | b | z | s | items | fields]; try reflexivity.
      destruct (MessageResponse fields) as [m | e]; [ | reflexivity ].
      destruct (fst (f m (ext st))); reflexivity.
Qed.

(** X7. [wait_until_connected] does nothing of its own besides reading
    the clock and sleeping: whatever is recorded while it waits comes from
    handlers run during the sleeps, and the configuration, credentials and
    transport handle are as before when it ends or runs out of rounds. *)
Theorem waiting_keeps_the_wiring (rounds : nat) (timeout : pyfloat) (st : state) :
  exists evs,
    trace (snd (wait_until_connected rounds timeout st)) = trace st ++ evs /\
    same_wiring st (snd (wait_until_connected rounds timeout st)) /\
    forallb handler_event evs = true.
Proof.
  destruct (foot_wait_until_connected same_wiring handler_event same_wiring_refl
              same_wiring_trans (fun s w => same_wiring_refl s)
              (fun s e => same_wiring_refl s) (fun s b => same_wiring_refl s)
              (fun e H => H) rounds timeout st)
    as [evs [Htr [Hk Hok]]].
  exists evs. auto.
Qed.

(** X4. A transport error is logged and handed to the error callback as
    it came; the handler raises only what that callback raises, and the
    connected flag, the transport handle, the credentials and the
    configuration are untouched. *)
Theorem error_notifications_are_forwarded (error : exn) (st : state) :
  exists st',
    on_error_event error st =
      (match on_error st with
       | Some f => fst (f error (ext st))
       | None => Ret tt
       end, st') /\
    same_client st st' /\
    trace st' =
      trace st ++ ELog ERROR (LogCentrifugoError error) ::
      match on_error st with
      | Some _ => [ECallback (CbError error)]
      | None => []
      end.
Proof.
  unfold on_error_event, log. rewrite bind_emit, bind_gets.
  cbn [on_error add_event].
  destruct (on_error st) as [f | ]; cbn [option_map call_if_set].
  - rewrite bind_emit. unfold external. cbn [ext add_event].
    destruct (f error (ext st)) as [r w]. cbn [fst].
    eexists. split; [ reflexivity | ]. split; [ repeat split | ].
    cbn. now rewrite <- app_assoc.
  - eexists. split; [ reflexivity | ]. split; [ repeat split | reflexivity ].
Qed.

(** X5. The disconnected handler clears the flag and invokes the
    disconnect callback once, whatever the flag was before; it raises only
    what the callback raises, and it keeps the transport handle and the
    credentials, so that a later [disconnect()] still tears the transport
    down. *)
Theorem disconnected_notifications_clear_the_flag (st : state) :
  exists st',
    on_disconnected st =
      (match on_disconnect st with
       | Some f => fst (f (ext st))
       | None => Ret tt
       end, st') /\
    connected st' = false /\
    same_wiring st st' /\
    trace st' =
      trace st ++ ELog INFO LogDisconnected ::
      match on_disconnect st with
      | Some _ => [ECallback CbDisconnect]
      | None => []
      end.
Proof.
  unfold on_disconnected, log. rewrite bind_modify, bind_emit, bind_gets.
  cbn [on_disconnect add_event set_connected].
  destruct (on_disconnect st) as [f | ]; cbn [call_if_set].
  - rewrite bind_emit. unfold external. cbn [ext add_event set_connected].
    destruct (f (ext st)) as [r w]. cbn [fst].
    eexists. split; [ reflexivity | ]. split; [ reflexivity | ].
    split; [ repeat split | ]. cbn. now rewrite <- app_assoc.
  - eexists. split; [ reflexivity | ]. split; [ reflexivity | ].
    split; [ repeat split | reflexivity ].
Qed.

(** X8. Without a transport handle [_subscribe_channel] does nothing.
    With one, it creates the subscription, attaches the publication
    handler, subscribes, and logs the success, in that order, and stops at
    the first of these steps that raises: the handler is always attached
    before [subscribe] is called, and the success is logged only after
    [subscribe] returned. *)
Theorem subscription_steps (channel : json) (st st' : state) (r : outcome unit) :
  _subscribe_channel channel st = (r, st') ->
  match _client st with
  | None => r = Ret tt /\ st' = st
  | Some _ =>
      exists evs,
        trace st' = trace st ++ evs /\
        match r with
        | Ret _ =>
            evs = [ENewSubscription channel; ESubOnPublication channel;
                   ESubscribe channel; ELog INFO (LogSubscribed channel)]
        | Raise _ =>
            evs = [ENewSubscription channel] \/
            evs = [ENewSubscription channel; ESubOnPublication channel] \/
            evs = [ENewSubscription channel; ESubOnPublication channel;
                   ESubscribe channel]
        end
  end.
Proof.
  unfold _subscribe_channel. rewrite bind_gets.
  destruct (_client st) as [h | ].
  2: { intros H. inversion H. auto. }
  rewrite bind_emit. unfold bind at 1. unfold external at 1. cbn [ext add_event].
  destruct (new_subscription h channel (ext st)) as [[sub | e] w1].
  2: { intros H. inversion H; subst. exists [ENewSubscription channel]. auto. }
  rewrite bind_emit. unfold bind at 1. unfold external at 1. cbn [ext add_event set_ext].
  destruct (sub_on_publication sub w1) as [[[] | e] w2].
  2: { intros H. inversion H; subst.
       exists [ENewSubscription channel; ESubOnPublication channel].
       cbn. rewrite <- ?app_assoc. auto. }
  rewrite bind_emit. unfold bind at 1. unfold external at 1. cbn [ext add_event set_ext].
  destruct (sub_subscribe sub w2) as [[[] | e] w3].
  2: { intros H. inversion H; subst.
       exists [ENewSubscription channel; ESubOnPublication channel; ESubscribe channel].
       cbn. rewrite <- ?app_assoc. auto. }
  intros H. inversion H; subst.
  exists [ENewSubscription channel; ESubOnPublication channel; ESubscribe channel;
          ELog INFO (LogSubscribed channel)].
  cbn. rewrite <- ?app_assoc. auto.
Qed.

End MoreProperties.

Section Operations.

Context {E : Env}.

(** ** Sending a message *)

(** X1. [send_message] raises [AuthenticationError] and sends nothing when
    no API key is configured.  With a key it makes one POST to
    [<base>/messages]; it returns if the call went through with a 2xx
    status, and otherwise raises [NetworkError] wrapping the cause, with
    an error record in the log. *)
Theorem send_message_outcome (content : string) (to_username : option string)
    (st : state) :
  if truthy (api_key st) then
    exists payload st',
      send_message content to_username st =
        (match send_failure (fst (http_send (message_request payload st) (ext st))) with
         | None => Ret tt
         | Some e => Raise (NetworkError "Failed to send message" e)
         end, st') /\
      trace st' =
        trace st ++ EHttp (message_request payload st) ::
        match send_failure (fst (http_send (message_request payload st) (ext st))) with
        | None => [ELog DEBUG LogSent]
        | Some e => [ELog ERROR (LogSendFailed e)]
        end
  else
    send_message content to_username st =
      (Raise (AuthenticationError "API key is required"), st).
Proof.
  unfold send_message, message_request.
  destruct (truthy (api_key st)) eqn:Hkey; rewrite bind_gets, Hkey; cbn [negb];
    [ | reflexivity ].
  exists (if truthy to_username
          then [("content", JStr content); ("to_username", JStr (key_text to_username))]
          else [("content", JStr content)]).
  unfold try_except. rewrite bind_gets.
  unfold bind at 1. rewrite http_run. cbn [ext add_event].
  destruct (http_send _ (ext st)) as [[e | status body] w]; cbn [fst send_failure].
  - eexists. split; [ reflexivity | ]. cbn. now rewrite <- app_assoc.
  - destruct (is_success status); eexists; (split; [ reflexivity | ]);
      cbn; now rewrite <- app_assoc.
Qed.

(** X2. The body that [send_message] posts always has the content, and
    has a recipient exactly when [to_username] is a non-empty string: a
    missing or empty recipient makes it a room message. *)
Theorem send_message_payload (content : string) (to_username : option string)
    (st : state) :
  truthy (api_key st) = true ->
  exists payload,
    http_requests (skipn (length (trace st))
                     (trace (snd (send_message content to_username st)))) =
      [message_request payload st] /\
    dict_get "content" payload = Some (JStr content) /\
    dict_get "to_username" payload =
      (if truthy to_username then option_map JStr to_username else None) /\
    length payload = (if truthy to_username then 2 else 1).
Proof.
  intros Hkey.
  unfold send_message, message_request. rewrite bind_gets, Hkey. cbn [negb].
  exists (if truthy to_username
          then [("content", JStr content); ("to_username", JStr (key_text to_username))]
          else [("content", JStr content)]).
  unfold try_except. rewrite bind_gets.
  unfold bind at 1. rewrite http_run. cbn [ext add_event].
  split.
  - destruct (http_send _ (ext st)) as [[e | status body] w];
      [ | destruct (is_success status) ];
      cbn [snd trace set_ext add_event bind log emit modify raise];
      rewrite <- ?app_assoc, skipn_app, skipn_all, Nat.sub_diag; reflexivity.
  - destruct to_username as [[ | c s] | ]; cbn; auto.
Qed.

(** ** The request/response methods and the connection *)

Lemma requests_refl (st : state) : within same_client request_event st st [].
Proof. split; [ apply same_client_refl | reflexivity ]. Qed.

Lemma requests_trans (s1 s2 s3 : state) (e1 e2 : list event) :
  within same_client request_event s1 s2 e1 ->
  within same_client request_event s2 s3 e2 ->
  within same_client request_event s1 s3 (e1 ++ e2).
Proof.
  intros [K1 O1] [K2 O2]. split.
  - eapply same_client_trans; eassumption.
  - rewrite forallb_app, O1, O2. reflexivity.
Qed.

Lemma requests_http (r : request) : tracked (within same_client request_event) (http r).
Proof.
  intros st. rewrite http_run.
  destruct (http_send r (ext st)) as [[e | status body] w];
    [ | destruct (is_success status) ];
    (exists [EHttp r]; split; [ reflexivity | split; [ repeat split | reflexivity ] ]).
Qed.

Lemma requests_log (l : level) (r : log_record) :
  tracked (within same_client request_event) (log l r).
Proof.
  intros st. exists [ELog l r].
  split; [ reflexivity | split; [ repeat split | reflexivity ] ].
Qed.

Ltac requests :=
  repeat first
    [ apply (seq_ret _ requests_refl)
    | apply (seq_raise _ requests_refl)
    | apply (seq_lift _ requests_refl)
    | apply (seq_gets _ requests_refl)
    | apply requests_http
    | apply requests_log
    | apply (seq_bind _ requests_trans); [ | intros ? ]
    | apply (seq_try_except _ requests_trans); [ | intros ? ] ].

Lemma requests_tracked :
  (forall content to_username,
     tracked (within same_client request_event) (send_message content to_username)) /\
  (forall message_id,
     tracked (within same_client request_event) (mark_as_read message_id)) /\
  tracked (within same_client request_event) mark_all_as_read.
Proof.
  split; [ | split ].
  - intros content to_username. unfold send_message.
    apply (seq_bind _ requests_trans); [ requests | intros key ].
    destruct (negb (truthy key)); requests.
  - intros message_id. unfold mark_as_read.
    apply (seq_bind _ requests_trans); [ requests | intros key ].
    destruct (negb (truthy key)); requests.
  - unfold mark_all_as_read.
    apply (seq_bind _ requests_trans); [ requests | intros key ].
    destruct (negb (truthy key)); requests.
Qed.

(** X3. [send_message], [mark_as_read] and [mark_all_as_read] share
    nothing with the streaming connection: they leave the connected flag,
    the transport handle, the credentials and the configuration as they
    are, call no callback and no method of the transport, and record
    only their request and log records. *)
Theorem requests_leave_the_connection_alone (st : state) :
  (forall content to_username,
     exists evs,
       trace (snd (send_message content to_username st)) = trace st ++ evs /\
       same_client st (snd (send_message content to_username st)) /\
       forallb request_event evs = true) /\
  (forall message_id,
     exists evs,
       trace (snd (mark_as_read message_id st)) = trace st ++ evs /\
       same_client st (snd (mark_as_read message_id st)) /\
       forallb request_event evs = true) /\
  (exists evs,
     trace (snd (mark_all_as_read st)) = trace st ++ evs /\
     same_client st (snd (mark_all_as_read st)) /\
     forallb request_event evs = true).
Proof.
  destruct requests_tracked as [Hsend [Hread Hall]].
  split; [ | split ].
  - intros content to_username.
    destruct (Hsend content to_username st) as [evs [Htr [Hk Hok]]]. eauto.
  - intros message_id.
    destruct (Hread message_id st) as [evs [Htr [Hk Hok]]]. eauto.
  - destruct (Hall st) as [evs [Htr [Hk Hok]]]. eauto.
Qed.

End Operations.

Section LifeCycle.

Context {E : Env}.

(** ** Connecting and disconnecting *)

Lemma try_except_gets {A B} (f : state -> A) (k : A -> M B) (h : exn -> M B)
    (st : state) :
  try_except (x <- gets f ;; k x) h st = try_except (k (f st)) h st.
Proof. reflexivity. Qed.

Lemma unrelated_refl (st : state) : within (fun _ _ => True) unrelated st st [].
Proof. split; [ exact I | reflexivity ]. Qed.

Lemma unrelated_trans (s1 s2 s3 : state) (e1 e2 : list event) :
  within (fun _ _ => True) unrelated s1 s2 e1 ->
  within (fun _ _ => True) unrelated s2 s3 e2 ->
  within (fun _ _ => True) unrelated s1 s3 (e1 ++ e2).
Proof.
  intros [_ O1] [_ O2]. split; [ exact I | ].
  rewrite forallb_app, O1, O2. reflexivity.
Qed.

Lemma unrelated_handler (e : event) : handler_event e = true -> unrelated e = true.
Proof. destruct e; cbn; congruence. Qed.

Lemma unrelated_emit (e : event) :
  unrelated e = true -> tracked (within (fun _ _ => True) unrelated) (emit e).
Proof.
  intros He st. exists [e]. split; [ reflexivity | ].
  split; [ exact I | cbn; now rewrite He ].
Qed.

Lemma unrelated_silent (f : state -> state) :
  (forall st, trace (f st) = trace st) ->
  tracked (within (fun _ _ => True) unrelated) (modify f).
Proof.
  intros Hf st. exists []. cbn [snd modify]. rewrite Hf, app_nil_r.
  split; [ reflexivity | split; [ exact I | reflexivity ] ].
Qed.

Lemma unrelated_external {A} (f : world -> outcome A * world) :
  tracked (within (fun _ _ => True) unrelated) (external f).
Proof.
  intros st. unfold external. destruct (f (ext st)) as [r w]. cbn [snd].
  exists []. split; [ now rewrite app_nil_r | split; [ exact I | reflexivity ] ].
Qed.

Lemma unrelated_awaiting {R} (f : world -> await world R) :
  tracked (within (fun _ _ => True) unrelated) (awaiting f).
Proof.
  apply (foot_awaiting (fun _ _ => True) unrelated); auto.
  apply unrelated_handler.
Qed.

(** X9. With an API key, [connect()] makes exactly one HTTP request, the
    GET of the connection token with the key in its header, whether it
    goes on to succeed or to fail; and it never calls the transport's
    [disconnect]: a transport client that the client held before the call
    is not torn down by it. *)
Theorem connect_requests_once (st : state) :
  truthy (api_key st) = true ->
  exists evs,
    trace (snd (connect st)) = trace st ++ EHttp (bootstrap_request st) :: evs /\
    forallb unrelated evs = true.
Proof.
  intros Hkey. unfold connect, connecting, bootstrap_request.
  rewrite bind_gets, Hkey. cbn [negb]. rewrite try_except_gets.
  match goal with
  | |- context [ try_except (bind (http ?r) ?k) ?h st ] =>
      pose proof (seq_try_after (within (fun _ _ => True) unrelated)
                    unrelated_trans (http r) k h st) as Hafter
  end.
  destruct Hafter as [evs [Htr [_ Hok]]].
  - intros body.
    repeat first
      [ apply (seq_lift _ unrelated_refl)
      | apply (seq_gets _ unrelated_refl)
      | apply unrelated_external
      | apply unrelated_awaiting
      | apply unrelated_emit; reflexivity
      | apply unrelated_silent; reflexivity
      | apply (seq_bind _ unrelated_trans); [ | intros ? ] ].
  - intros e. unfold log.
    repeat first
      [ apply (seq_raise _ unrelated_refl)
      | apply unrelated_emit; reflexivity
      | apply (seq_bind _ unrelated_trans); [ | intros ? ] ].
  - exists evs. split; [ | exact Hok ].
    rewrite Htr. rewrite http_run.
    destruct (http_send _ (ext st)) as [[e | status body] w];
      [ | destruct (is_success status) ];
      cbn [snd trace set_ext add_event]; now rewrite <- app_assoc.
Qed.

Lemma bind_returns {A B} (m : M A) (k : A -> M B) (st st' : state) (b : B) :
  bind m k st = (Ret b, st') ->
  exists a s1, m st = (Ret a, s1) /\ k a s1 = (Ret b, st').
Proof.
  unfold bind. destruct (m st) as [[a | e] s1]; intros H; [ eauto | discriminate ].
Qed.

Lemma external_returns {A} (f : world -> outcome A * world) (st s1 : state) (a : A) :
  external f st = (Ret a, s1) ->
  exists w, f (ext st) = (Ret a, w) /\ s1 = set_ext w st.
Proof.
  unfold external. destruct (f (ext st)) as [r w]. intros H. inversion H. eauto.
Qed.

(** What the [try] block of [connect] has done when it comes to its end,
    step by step. *)
Lemma connecting_run (st st' : state) :
  connecting (api_key st) st = (Ret tt, st') ->
  exists status info w0 url token h w1 evs,
    http_send (bootstrap_request st) (ext st) = (HttpResponse status (Ret info), w0) /\
    is_success status = true /\
    subscript (Some info) "url" = Ret url /\
    subscript (Some info) "token" = Ret token /\
    CentrifugeClient url token w0 = (Ret h, w1) /\
    _client st' = Some h /\ _connection_info st' = Some info /\
    trace st' =
      trace st ++
      [EHttp (bootstrap_request st); ECentrifugeClient url token;
       EClientOn HookConnected; EClientOn HookDisconnected; EClientOn HookError;
       EClientConnect] ++ evs /\
    forallb handler_event evs = true.
Proof.
  unfold connecting, bootstrap_request. intros Hbody.
  rewrite bind_gets in Hbody.
  apply bind_returns in Hbody as [body [s1 [Hhttp Hbody]]].
  rewrite http_run in Hhttp.
  destruct (http_send _ (ext st)) as [[e | status rbody] w0] eqn:Hsend; [ discriminate | ].
  destruct (is_success status) eqn:Hok; [ | discriminate ].
  inversion Hhttp; subst body s1. clear Hhttp.
  apply bind_returns in Hbody as [info [s2 [Hinfo Hbody]]].
  unfold lift in Hinfo. inversion Hinfo; subst s2 rbody. clear Hinfo.
  rewrite bind_modify, bind_gets in Hbody.
  cbn [_connection_info set_connection_info] in Hbody.
  apply bind_returns in Hbody as [url [s3 [Hurl Hbody]]].
  unfold lift in Hurl. inversion Hurl as [[Hu Hs]]. subst s3. clear Hurl.
  apply bind_returns in Hbody as [token [s4 [Htok Hbody]]].
  unfold lift in Htok. inversion Htok as [[Ht Hs]]. subst s4. clear Htok.
  rewrite bind_emit in Hbody.
  apply bind_returns in Hbody as [h [s5 [Hnew Hbody]]].
  apply external_returns in Hnew as [w1 [Hmade Hs5]]. subst s5.
  cbn [ext set_ext add_event set_connection_info] in Hmade.
  rewrite bind_modify, bind_emit in Hbody.
  apply bind_returns in Hbody as [u1 [s6 [Hon1 Hbody]]].
  apply external_returns in Hon1 as [w2 [_ Hs6]]. subst s6.
  rewrite bind_emit in Hbody.
  apply bind_returns in Hbody as [u2 [s7 [Hon2 Hbody]]].
  apply external_returns in Hon2 as [w3 [_ Hs7]]. subst s7.
  rewrite bind_emit in Hbody.
  apply bind_returns in Hbody as [u3 [s8 [Hon3 Hbody]]].
  apply external_returns in Hon3 as [w4 [_ Hs8]]. subst s8.
  rewrite bind_emit in Hbody.
  apply bind_returns in Hbody as [r [s9 [Hawait Hbody]]].
  unfold lift in Hbody. inversion Hbody; subst s9. clear Hbody.
  unfold awaiting in Hawait.
  match type of Hawait with
  | (let (_, _) := run_await ?a ?s in _) = _ =>
      pose proof (wiring_run_await a s) as Hw;
      destruct (run_await a s) as [r' s10]
  end.
  inversion Hawait; subst. clear Hawait.
  destruct Hw as [evs [Htr [[[_ [_ [_ [_ [_ [_ Hi]]]]]] Hc] Hok']]]. cbn [snd] in *.
  exists status, info, w0, url, token, h, w1, evs.
  rewrite Hc, Hi. cbn [_client _connection_info set_ext add_event set_client
                          set_connection_info].
  repeat split; auto.
  rewrite Htr. cbn [trace set_ext add_event set_client set_connection_info].
  rewrite <- !app_assoc. reflexivity.
Qed.

(** A [connect()] that returns had a key, and its [try] block came to its
    end. *)
Lemma connect_returns (st st' : state) :
  connect st = (Ret tt, st') ->
  truthy (api_key st) = true /\ connecting (api_key st) st = (Ret tt, st').
Proof.
  unfold connect. rewrite bind_gets.
  destruct (truthy (api_key st)); cbn [negb]; [ | discriminate ].
  unfold try_except.
  destruct (connecting (api_key st) st) as [[[] | e] s]; [ | discriminate ].
  intros H. inversion H. auto.
Qed.

(** X10. When [connect()] returns, the server has answered the bootstrap
    request with a success, and the client holds the body of that answer
    as its credentials and, as its transport client, the one that
    [CentrifugeClient] made from their [url] and [token]; the three
    handlers were registered, in the order connected, disconnected,
    error, before the handshake was started; and everything recorded
    after that comes from handlers run during the handshake. *)
Theorem connect_returned (st st' : state) :
  connect st = (Ret tt, st') ->
  exists status info w0 url token h w1 evs,
    http_send (bootstrap_request st) (ext st) = (HttpResponse status (Ret info), w0) /\
    is_success status = true /\
    subscript (Some info) "url" = Ret url /\
    subscript (Some info) "token" = Ret token /\
    CentrifugeClient url token w0 = (Ret h, w1) /\
    _client st' = Some h /\ _connection_info st' = Some info /\
    trace st' =
      trace st ++
      [EHttp (bootstrap_request st); ECentrifugeClient url token;
       EClientOn HookConnected; EClientOn HookDisconnected; EClientOn HookError;
       EClientConnect] ++ evs /\
    forallb handler_event evs = true.
Proof.
  intros Hrun. destruct (connect_returns st st' Hrun) as [_ Hbody].
  exact (connecting_run st st' Hbody).
Qed.

End LifeCycle.

Section Leaving.

Context {E : Env}.

(** X11. [disconnect()] keeps the credentials and the configuration: it
    does not clear what the bootstrap stored.  On a client without a
    transport handle it does nothing; otherwise it calls the transport's
    [disconnect] once, and everything else recorded comes from handlers
    run meanwhile: no request, no new transport client. *)
Theorem disconnect_keeps_credentials (st : state) :
  same_setup st (snd (disconnect st)) /\
  match _client st with
  | None => disconnect st = (Ret tt, st)
  | Some _ =>
      exists evs,
        trace (snd (disconnect st)) = trace st ++ EClientDisconnect :: evs /\
        forallb handler_event evs = true
  end.
Proof.
  destruct (_client st) as [h | ] eqn:Hc.
  - rewrite (disconnect_run h st Hc).
    pose proof (wiring_run_await (client_disconnect h (ext st))
                  (add_event EClientDisconnect st)) as Hw.
    destruct (run_await _ _) as [r s].
    destruct Hw as [evs [Htr [[Hset _] Hok]]]. cbn [snd] in *.
    assert (Hbase : same_setup st s).
    { eapply same_setup_trans; [ | exact Hset ]. repeat split. }
    assert (Htrace : trace s = trace st ++ EClientDisconnect :: evs).
    { rewrite Htr. cbn. now rewrite <- app_assoc. }
    destruct r as [[] | e]; cbn [snd].
    + split; [ | exists evs; auto ].
      eapply same_setup_trans; [ exact Hbase | repeat split ].
    + split; [ exact Hbase | exists evs; auto ].
  - assert (Hrun : disconnect st = (Ret tt, st)).
    { unfold disconnect. rewrite bind_gets, Hc. reflexivity. }
    rewrite Hrun. split; [ apply same_setup_refl | reflexivity ].
Qed.

(** X12. [async with]: if entering raises, the body is not run and that
    exception comes out.  If entering returns and the body leaves the
    handle in place, the transport's [disconnect] is called on leaving
    whether the body returned or raised; when that call returns the
    client holds no handle, is not connected, and the outcome is the
    body's own; when it raises, its exception comes out instead. *)
Theorem async_with_tears_down {A} (body : M A) (st st' : state) (r : outcome A) :
  async_with body st = (r, st') ->
  match connect st with
  | (Raise e, s0) => r = Raise e /\ st' = s0
  | (Ret _, s0) =>
      _client (snd (body s0)) = _client s0 ->
      In EClientDisconnect (trace st') /\
      match fst (disconnect (snd (body s0))) with
      | Ret _ => r = fst (body s0) /\ _client st' = None /\ connected st' = false
      | Raise e => r = Raise e
      end
  end.
Proof.
  unfold async_with, __aenter__, __aexit__. unfold bind at 1.
  destruct (connect st) as [[[] | e] s0] eqn:Hconn.
  2: { intros H. inversion H. auto. }
  intros Hrun Hsame.
  destruct (connecting_run _ _ (proj2 (connect_returns _ _ Hconn)))
    as [status [info [w0 [url [token [h [w1 [evs [_ [_ [_ [_ [_ [Hc _]]]]]]]]]]]]]].
  rewrite Hc in Hsame.
  assert (Hdisc : forall s, _client s = Some h ->
            In EClientDisconnect (trace (snd (disconnect s))) /\
            match fst (disconnect s) with
            | Ret _ => _client (snd (disconnect s)) = None /\
                       connected (snd (disconnect s)) = false
            | Raise _ => True
            end).
  { intros s Hs. rewrite (disconnect_run h s Hs).
    pose proof (wiring_run_await (client_disconnect h (ext s))
                  (add_event EClientDisconnect s)) as Hw.
    destruct (run_await _ _) as [x s2].
    destruct Hw as [evs' [Htr _]]. cbn [snd] in Htr.
    assert (Hin : In EClientDisconnect (trace s2)).
    { rewrite Htr. cbn. apply in_or_app. left. apply in_or_app. right. now left. }
    destruct x as [[] | e]; cbn; auto. }
  destruct (body s0) as [[a | e] s1] eqn:Hbody; cbn [snd fst] in *.
  - specialize (Hdisc s1 Hsame).
    unfold bind in Hrun.
    destruct (disconnect s1) as [[[] | e] s2]; cbn [fst snd] in *;
      inversion Hrun; subst; intuition.
  - specialize (Hdisc s1 Hsame).
    unfold bind in Hrun.
    destruct (disconnect s1) as [[[] | e'] s2]; cbn [fst snd] in *;
      inversion Hrun; subst; intuition.
Qed.

(** ** Construction *)

Lemma rstrip_slash_suffix (s : string) :
  exists n, s = (rstrip_slash s ++ slashes n)%string.
Proof.
  induction s as [ | c rest [n IH]]; cbn [rstrip_slash].
  - exists 0. reflexivity.
  - destruct (rstrip_slash rest) as [ | c' rest'] eqn:Hr.
    + destruct (Ascii.eqb c "/"%char) eqn:Hc.
      * apply Ascii.eqb_eq in Hc. subst c. exists (S n). cbn. now rewrite IH at 1.
      * exists n. cbn. now rewrite IH at 1.
    + exists n. cbn. now rewrite IH at 1.
Qed.

Lemma rstrip_slash_last (s : string) : last_char (rstrip_slash s) <> Some "/"%char.
Proof.
  induction s as [ | c rest IH]; cbn [rstrip_slash].
  - discriminate.
  - destruct (rstrip_slash rest) as [ | c' rest'] eqn:Hr.
    + destruct (Ascii.eqb c "/"%char) eqn:Hc; cbn.
      * discriminate.
      * apply Ascii.eqb_neq in Hc. congruence.
    + exact IH.
Qed.

(** X13. A new client is not connected, holds no handle and no
    credentials, and has recorded nothing.  Its base URL is the given one
    without its trailing slashes, and only those are removed; its API key
    is the given one if that is a non-empty string and the value of the
    environment variable otherwise, so a key is configured exactly when
    one of the two is non-empty. *)
Theorem init_state (key getenv : option string) (url : string)
    (on_msg : option (message -> callback)) (on_conn on_disc : option callback)
    (on_err : option (exn -> callback)) (w : world) :
  (exists n,
     url = (base_url (init key getenv url on_msg on_conn on_disc on_err w)
            ++ slashes n)%string) /\
  last_char (base_url (init key getenv url on_msg on_conn on_disc on_err w))
    <> Some "/"%char /\
  truthy (api_key (init key getenv url on_msg on_conn on_disc on_err w)) =
    truthy key || truthy getenv /\
  api_key (init key getenv url on_msg on_conn on_disc on_err w) =
    (if truthy key then key else getenv) /\
  _client (init key getenv url on_msg on_conn on_disc on_err w) = None /\
  _connection_info (init key getenv url on_msg on_conn on_disc on_err w) = None /\
  connected (init key getenv url on_msg on_conn on_disc on_err w) = false /\
  trace (init key getenv url on_msg on_conn on_disc on_err w) = [].
Proof.
  cbn [init base_url api_key _client _connection_info connected _connected trace].
  split; [ apply rstrip_slash_suffix | ]. split; [ apply rstrip_slash_last | ].
  unfold py_or. destruct (truthy key) eqn:Hk; cbn [orb]; rewrite ?Hk;
    repeat split; reflexivity.
Qed.

End Leaving.

Section Edges.

Context {E : Env}.

(** ** Edge cases *)

(** X19. [mark_all_as_read] raises [AuthenticationError] and sends nothing
    when no API key is configured.  With a key it makes exactly one POST
    to [<base>/messages/mark-all-read], and writes an error record exactly
    when the request failed or its body could not be decoded, which is
    when it answers with the zero count of its own. *)
Theorem mark_all_as_read_request (st : state) :
  if truthy (api_key st) then
    trace (snd (mark_all_as_read st)) =
      trace st ++ EHttp (read_all_request st) ::
      match body_failure (fst (http_send (read_all_request st) (ext st))) with
      | Some e => [ELog ERROR (LogMarkAllReadFailed e)]
      | None => []
      end
  else
    mark_all_as_read st = (Raise (AuthenticationError "API key is required"), st).
Proof.
  unfold mark_all_as_read, read_all_request.
  destruct (truthy (api_key st)) eqn:Hkey; rewrite bind_gets, Hkey; cbn [negb];
    [ | reflexivity ].
  unfold try_except. rewrite bind_gets.
  unfold bind at 1. rewrite http_run. cbn [ext add_event].
  destruct (http_send _ (ext st)) as [[e | status body] w];
    unfold body_failure, send_failure; cbn [fst].
  - cbn. now rewrite <- app_assoc.
  - destruct (is_success status).
    + destruct body as [counted | e]; cbn; now rewrite <- ?app_assoc.
    + cbn. now rewrite <- app_assoc.
Qed.

(** X20. If the server answers the bootstrap with a success whose body
    has no [url] or no [token], [connect()] raises [NetworkError] wrapping
    the lookup error and creates no transport client; but the incomplete
    body has already been stored, and stays, as the client's
    credentials. *)
Theorem connect_incomplete_credentials (st : state) (status : Z) (info : json)
    (w : world) (e : exn) :
  truthy (api_key st) = true ->
  http_send (bootstrap_request st) (ext st) = (HttpResponse status (Ret info), w) ->
  is_success status = true ->
  missing_credential info = Some e ->
  exists st',
    connect st = (Raise (NetworkError "Failed to connect to Centrifugo" e), st') /\
    _connection_info st' = Some info /\
    _client st' = _client st /\
    trace st' =
      trace st ++ [EHttp (bootstrap_request st); ELog ERROR (LogConnectFailed e)].
Proof.
  intros Hkey Hsend Hok Hmiss. unfold connect, connecting, bootstrap_request in *.
  rewrite bind_gets, Hkey. cbn [negb]. unfold try_except.
  rewrite bind_gets. unfold bind at 1. rewrite http_run. cbn [ext add_event].
  rewrite Hsend, Hok. unfold bind at 1, lift at 1.
  rewrite bind_modify, bind_gets. cbn [_connection_info set_connection_info].
  unfold missing_credential in Hmiss.
  unfold bind at 1, lift at 1.
  destruct (subscript (Some info) "url") as [url | x].
  - unfold bind at 1, lift at 1.
    destruct (subscript (Some info) "token") as [token | x]; [ discriminate | ].
    inversion Hmiss; subst x.
    eexists. split; [ reflexivity | ]. cbn.
    repeat split. now rewrite <- app_assoc.
  - inversion Hmiss; subst x.
    eexists. split; [ reflexivity | ]. cbn.
    repeat split. now rewrite <- app_assoc.
Qed.

(** X21. The connected handler reads the channel list last.  If the
    credentials have no [channels], the client is marked connected and
    the connect callback has been invoked by the time the lookup fails;
    the lookup error comes out of the handler and no subscription is
    started. *)
Theorem connected_without_channels (st : state) (e : exn) :
  subscript (_connection_info st) "channels" = Raise e ->
  match on_connect st with
  | Some f => fst (f (ext st)) = Ret tt
  | None => True
  end ->
  exists st',
    on_connected st = (Raise e, st') /\
    connected st' = true /\
    trace st' =
      trace st ++ ELog INFO LogConnected ::
      match on_connect st with
      | Some _ => [ECallback CbConnect]
      | None => []
      end.
Proof.
  intros Hch Hcb. unfold on_connected, log.
  rewrite bind_modify, bind_emit, bind_gets.
  cbn [on_connect add_event set_connected].
  destruct (on_connect st) as [f | ]; cbn [call_if_set].
  - unfold bind at 1. rewrite bind_emit. unfold external at 1.
    cbn [ext add_event set_connected].
    destruct (f (ext st)) as [[[] | x] w0]; cbn [fst] in Hcb; [ | discriminate ].
    rewrite bind_gets. cbn [_connection_info set_ext add_event set_connected].
    rewrite Hch. eexists. split; [ reflexivity | ]. cbn.
    split; [ reflexivity | now rewrite <- app_assoc ].
  - unfold bind at 1, ret at 1. rewrite bind_gets.
    cbn [_connection_info add_event set_connected]. rewrite Hch.
    eexists. split; [ reflexivity | ]. cbn. split; reflexivity.
Qed.

(** X22. The timeout is compared strictly, against the time between two
    readings of the clock: the one taken at the call and the one taken in
    the first round of the loop.  On a client that is not connected the
    call raises [TimeoutError] before its first sleep exactly when the
    second reading exceeds the first by more than the timeout.  So with a
    clock that does not run backwards a negative timeout raises at once,
    without sleeping, and a timeout of zero raises at once exactly when
    the clock has moved between the two readings. *)
Theorem waiting_bounds (t : Z) (st : state) :
  connected st = false ->
  (fst (loop_time (ext st)) <= fst (loop_time (snd (loop_time (ext st)))))%Z ->
  (fst (wait_until_connected 1 (Finite t) st) =
     Some (Raise (TimeoutError "Connection timeout"))
   <-> (t < fst (loop_time (snd (loop_time (ext st)))) - fst (loop_time (ext st)))%Z) /\
  ((t < 0)%Z ->
   forall rounds,
     wait_until_connected (S rounds) (Finite t) st =
       (Some (Raise (TimeoutError "Connection timeout")),
        set_ext (snd (loop_time (snd (loop_time (ext st))))) st)).
Proof.
  intros Hd Hmono. unfold wait_until_connected, connected in *.
  destruct (loop_time (ext st)) as [start_time w0]. cbn [fst snd] in *.
  cbn [wait_loop _connected set_ext ext]. rewrite Hd.
  destruct (loop_time w0) as [now w1]. cbn [fst snd exceeds] in *.
  destruct (t <? now - start_time)%Z eqn:Hlate.
  - apply Z.ltb_lt in Hlate. split; [ split; auto | ].
    intros _ rounds. reflexivity.
  - apply Z.ltb_ge in Hlate. split; [ | intros Hneg; lia ].
    destruct (run_await (asyncio_sleep w1) (set_ext w1 (set_ext w0 st))) as [u s1].
    cbn [fst]. split; [ discriminate | lia ].
Qed.

(** X23. A [disconnect()] that raises has not let go: when the
    transport's [disconnect] raises, the client still holds its transport
    handle, so that a further [disconnect()] calls the transport again
    instead of returning at once. *)
Theorem failed_disconnect_keeps_the_handle (st : state) (e : exn) :
  fst (disconnect st) = Raise e ->
  (exists h, _client st = Some h) /\
  _client (snd (disconnect st)) = _client st /\
  exists evs,
    trace (snd (disconnect (snd (disconnect st)))) =
      trace (snd (disconnect st)) ++ EClientDisconnect :: evs.
Proof.
  intros Hr.
  assert (Hagain : forall h s, _client s = Some h ->
            exists evs, trace (snd (disconnect s)) = trace s ++ EClientDisconnect :: evs).
  { intros h s Hs. rewrite (disconnect_run h s Hs).
    pose proof (wiring_run_await (client_disconnect h (ext s))
                  (add_event EClientDisconnect s)) as Hw.
    destruct (run_await _ _) as [r s2].
    destruct Hw as [evs [Htr _]]. cbn [snd] in Htr.
    exists evs. destruct r as [[] | x]; cbn; rewrite Htr; cbn;
      now rewrite <- app_assoc. }
  destruct (_client st) as [h | ] eqn:Hc.
  - assert (Hkept : _client (snd (disconnect st)) = Some h).
    { rewrite (disconnect_run h st Hc) in *.
      pose proof (wiring_run_await (client_disconnect h (ext st))
                    (add_event EClientDisconnect st)) as Hw.
      destruct (run_await _ _) as [r s].
      destruct r as [[] | x]; cbn [fst] in Hr; [ discriminate | ].
      destruct Hw as [evs [_ [[_ Hcl] _]]]. cbn in Hcl. cbn [snd].
      now rewrite Hcl. }
    split; [ now exists h | ]. split; [ exact Hkept | ].
    exact (Hagain h _ Hkept).
  - unfold disconnect in Hr. rewrite bind_gets, Hc in Hr. discriminate.
Qed.

End Edges.

(** * Properties of the request/response client *)

Section RestProperties.

Variable world : Type.
Variable transport : Rest.call -> world -> (Rest.failure + Rest.response) * world.

Lemma handle_response_ok (r : Rest.response) :
  Rest._handle_response r = Rest.Ok tt -> (Rest.status_code r < 400)%Z.
Proof.
  unfold Rest._handle_response, is_success.
  destruct (Z.ltb_spec (Rest.status_code r) 400); [ auto | ].
  repeat (destruct (_ =? _)%Z; [ discriminate | ]).
  destruct (500 <=? _)%Z; [ discriminate | ].
  destruct (Z.leb_spec 200 (Rest.status_code r)); [ | discriminate ].
  destruct (Z.leb_spec (Rest.status_code r) 299); [ lia | discriminate ].
Qed.

(** X14. [_handle_response] returns exactly for the statuses below 400.
    From 500 on it raises [ServerError]; between 400 and 499 it raises
    the class of the package that belongs to 401, 404, 409, 422 or 429,
    and for every other status the HTTP library's own status error, which
    is not one of the package's classes. *)
Theorem handle_response_raises_from_400 (r : Rest.response) :
  (Rest._handle_response r = Rest.Ok tt <-> (Rest.status_code r < 400)%Z) /\
  (Rest._handle_response r = Rest.Err (Rest.ServerError (Rest.error_message r) r)
     <-> (500 <= Rest.status_code r)%Z) /\
  (Rest._handle_response r = Rest.Err (Rest.HTTPStatusError r)
     <-> (400 <= Rest.status_code r < 500)%Z /\
         ~ In (Rest.status_code r) [401; 404; 409; 422; 429]%Z).
Proof.
  unfold Rest._handle_response, is_success. cbn [In].
  destruct (Z.ltb_spec (Rest.status_code r) 400).
  { repeat split; intros; try discriminate; try lia. }
  destruct (Z.eqb_spec (Rest.status_code r) 401).
  { repeat split; intros; try discriminate; try lia; intuition lia. }
  destruct (Z.eqb_spec (Rest.status_code r) 404).
  { repeat split; intros; try discriminate; try lia; intuition lia. }
  destruct (Z.eqb_spec (Rest.status_code r) 409).
  { repeat split; intros; try discriminate; try lia; intuition lia. }
  destruct (Z.eqb_spec (Rest.status_code r) 422).
  { repeat split; intros; try discriminate; try lia; intuition lia. }
  destruct (Z.eqb_spec (Rest.status_code r) 429).
  { repeat split; intros; try discriminate; try lia; intuition lia. }
  destruct (Z.leb_spec 500 (Rest.status_code r)).
  { repeat split; intros; try discriminate; try lia; intuition lia. }
  destruct (Z.leb_spec 200 (Rest.status_code r)); [ | lia ].
  destruct (Z.leb_spec (Rest.status_code r) 299); [ lia | ]. cbn [andb].
  repeat split; intros; try discriminate; try lia; intuition lia.
Qed.

(** X15. An operation that requires authentication, on a client whose
    API key is missing or empty, raises [AuthenticationError] before
    anything is sent.  In every other case [_request] makes exactly one
    call, to the base URL followed by the path, with the JSON content
    type, and with the [X-API-Key] header exactly when a key is set. *)
Theorem request_gate (c : Rest.client) (method : http_method) (path : string)
    (requires_auth : bool) (body : option json) (params : list (string * json))
    (s : Rest.session world) :
  if requires_auth && negb (truthy (Rest.api_key c)) then
    Rest._request world transport c method path requires_auth body params s =
      (Rest.Err (Rest.AuthenticationError
                   (Rest.Literal "API key required for this operation") None), s)
  else
    exists headers,
      snd (snd (Rest._request world transport c method path requires_auth body params s)) =
        snd s ++ [Rest.mkCall method (Rest.base_url c ++ path)%string headers body params] /\
      Rest.header "Content-Type" headers = Some "application/json" /\
      Rest.header "X-API-Key" headers =
        (if truthy (Rest.api_key c) then Rest.api_key c else None).
Proof.
  unfold Rest._request.
  destruct (requires_auth && negb (truthy (Rest.api_key c))); [ reflexivity | ].
  exists (Rest._get_headers c). split; [ | split ].
  - destruct (transport _ (fst s)) as [[[what | what | cls] | r] w];
      try reflexivity.
    destruct (Rest._handle_response r); reflexivity.
  - unfold Rest._get_headers. destruct (truthy (Rest.api_key c)); reflexivity.
  - unfold Rest._get_headers.
    destruct (Rest.api_key c) as [[ | ch k] | ]; reflexivity.
Qed.

Lemma handle_response_is_about_status (r : Rest.response) (e : Rest.error) :
  Rest._handle_response r = Rest.Err e ->
  (forall f, e <> Rest.TimeoutError f) /\ (forall f, e <> Rest.NetworkError f).
Proof.
  unfold Rest._handle_response.
  repeat match goal with
         | |- context [ if ?b then _ else _ ] => destruct b
         end; intros H; inversion H; split; intros f; discriminate.
Qed.

(** X16. [_request] hands back a response only if its status is below
    400, and then it is the response the HTTP client gave.  It raises the
    package's [TimeoutError] exactly when the HTTP client timed out, and
    the package's [NetworkError] exactly when the HTTP client reported a
    network error; a 408 or a 504 from the server is neither. *)
Theorem request_outcome (c : Rest.client) (method : http_method) (path : string)
    (requires_auth : bool) (body : option json) (params : list (string * json))
    (s : Rest.session world) :
  requires_auth && negb (truthy (Rest.api_key c)) = false ->
  (forall r s',
     Rest._request world transport c method path requires_auth body params s
       = (Rest.Ok r, s') ->
     (Rest.status_code r < 400)%Z /\
     fst (transport (Rest.mkCall method (Rest.base_url c ++ path)%string
                       (Rest._get_headers c) body params) (fst s)) = inr r) /\
  ((exists f, fst (Rest._request world transport c method path requires_auth body params s)
              = Rest.Err (Rest.TimeoutError f))
   <-> exists what,
         fst (transport (Rest.mkCall method (Rest.base_url c ++ path)%string
                           (Rest._get_headers c) body params) (fst s))
           = inl (Rest.TimeoutException what)) /\
  ((exists f, fst (Rest._request world transport c method path requires_auth body params s)
              = Rest.Err (Rest.NetworkError f))
   <-> exists what,
         fst (transport (Rest.mkCall method (Rest.base_url c ++ path)%string
                           (Rest._get_headers c) body params) (fst s))
           = inl (Rest.NetworkFailure what)).
Proof.
  intros Hgate. unfold Rest._request. rewrite Hgate.
  destruct (transport _ (fst s)) as [[[what | what | cls] | r] w]; cbn [fst].
  - split; [ intros r s' H; discriminate | ]. split; split.
    + intros _. eauto.
    + intros _. eauto.
    + intros [f H]. discriminate.
    + intros [x H]. discriminate.
  - split; [ intros r s' H; discriminate | ]. split; split.
    + intros [f H]. discriminate.
    + intros [x H]. discriminate.
    + intros _. eauto.
    + intros _. eauto.
  - split; [ intros r s' H; discriminate | ]. split; split.
    + intros [f H]. discriminate.
    + intros [x H]. discriminate.
    + intros [f H]. discriminate.
    + intros [x H]. discriminate.
  - pose proof (handle_response_ok r) as Hok.
    pose proof (handle_response_is_about_status r) as Hcls.
    destruct (Rest._handle_response r) as [[] | e]; cbn [fst].
    + split.
      * intros r' s' H. inversion H; subst. split; [ now apply Hok | reflexivity ].
      * split; split; intros [x H]; discriminate.
    + destruct (Hcls e eq_refl) as [Ht Hn]. split.
      * intros r' s' H. discriminate.
      * split; split; intros [x H]; try discriminate; inversion H; subst;
          [ now destruct (Ht x) | now destruct (Hn x) ].
Qed.

Variable page : Type.
Variable chat_message : Type.
Variable PaginatedMessagesResponse : json -> outcome page.
Variable MessageResponse : json -> outcome chat_message.
Variable SendMessageRequest : string -> option string -> outcome json.

Lemma and_then_session {A B} (r : Rest.result A * Rest.session world)
    (k : A -> Rest.result B) :
  snd (Rest.and_then world r k) = snd r.
Proof. destruct r as [[a | e] s]; reflexivity. Qed.

Lemma request_sent (c : Rest.client) (method : http_method) (path : string)
    (requires_auth : bool) (body : option json) (params : list (string * json))
    (s : Rest.session world) :
  requires_auth && negb (truthy (Rest.api_key c)) = false ->
  snd (snd (Rest._request world transport c method path requires_auth body params s)) =
    snd s ++ [Rest.mkCall method (Rest.base_url c ++ path)%string
                (Rest._get_headers c) body params].
Proof.
  intros Hgate. unfold Rest._request. rewrite Hgate.
  destruct (transport _ (fst s)) as [[[what | what | cls] | r] w]; try reflexivity.
  destruct (Rest._handle_response r); reflexivity.
Qed.

(** X17. With an API key, [get_messages] and [get_direct_messages] each
    make one GET that differs from the other's in the path only.  The
    query always has [limit] and [offset], and has [since] exactly when
    one was given: an empty string is still sent. *)
Theorem page_requests (c : Rest.client) (limit offset : Z) (since : option string)
    (s : Rest.session world) :
  truthy (Rest.api_key c) = true ->
  snd (snd (Rest.get_messages world transport page PaginatedMessagesResponse
              c limit offset since s)) =
    snd s ++ [Rest.mkCall GET (Rest.base_url c ++ "/messages")%string
                (Rest._get_headers c) None (Rest.page_params limit offset since)] /\
  snd (snd (Rest.get_direct_messages world transport page PaginatedMessagesResponse
              c limit offset since s)) =
    snd s ++ [Rest.mkCall GET (Rest.base_url c ++ "/messages/direct")%string
                (Rest._get_headers c) None (Rest.page_params limit offset since)] /\
  dict_get "limit" (Rest.page_params limit offset since) = Some (JNum limit) /\
  dict_get "offset" (Rest.page_params limit offset since) = Some (JNum offset) /\
  dict_get "since" (Rest.page_params limit offset since) = option_map JStr since.
Proof.
  intros Hkey.
  assert (Hgate : true && negb (truthy (Rest.api_key c)) = false) by now rewrite Hkey.
  unfold Rest.get_messages, Rest.get_direct_messages.
  rewrite !and_then_session, !request_sent by exact Hgate.
  repeat split. destruct since; reflexivity.
Qed.

(** X18. Without an API key every operation but the health check raises
    [AuthenticationError] and sends nothing ([send_message] once its
    request model has been built); [health_check] still makes its call,
    without an [X-API-Key] header. *)
Theorem only_health_check_without_key (c : Rest.client) (s : Rest.session world) :
  truthy (Rest.api_key c) = false ->
  Rest.get_users world transport c s = (Rest.refused, s) /\
  Rest.get_online_users world transport c s = (Rest.refused, s) /\
  (forall limit offset since,
     Rest.get_messages world transport page PaginatedMessagesResponse
       c limit offset since s = (Rest.refused, s) /\
     Rest.get_direct_messages world transport page PaginatedMessagesResponse
       c limit offset since s = (Rest.refused, s)) /\
  (forall content to_username dumped,
     SendMessageRequest content to_username = Ret dumped ->
     Rest.send_message world transport chat_message MessageResponse SendMessageRequest
       c content to_username s = (Rest.refused, s)) /\
  snd (snd (Rest.health_check world transport c s)) =
    snd s ++ [Rest.mkCall GET (Rest.base_url c ++ "/health")%string
                [("Content-Type", "application/json")] None []].
Proof.
  intros Hkey.
  assert (Hreq : forall method path body params,
            Rest._request world transport c method path true body params s =
              (Rest.refused, s)).
  { intros. unfold Rest._request. rewrite Hkey. reflexivity. }
  unfold Rest.get_users, Rest.get_online_users, Rest.get_messages,
    Rest.get_direct_messages, Rest.send_message, Rest.health_check.
  split; [ rewrite Hreq; reflexivity | ].
  split; [ rewrite Hreq; reflexivity | ].
  split; [ intros; rewrite !Hreq; split; reflexivity | ].
  split; [ intros content to_username dumped Hdump; rewrite Hdump, Hreq; reflexivity | ].
  rewrite and_then_session, request_sent by reflexivity.
  unfold Rest._get_headers. rewrite Hkey. reflexivity.
Qed.

End RestProperties.

(** ** The further theorems at concrete inputs *)

Lemma subscription_steps_witness :
  exists evs,
    trace (snd (_subscribe_channel (JStr "room") (joined calm 0%Z))) =
      trace (joined calm 0%Z) ++ evs /\
    evs = [ENewSubscription (JStr "room"); ESubOnPublication (JStr "room");
           ESubscribe (JStr "room"); ELog INFO (LogSubscribed (JStr "room"))].
Proof.
  assert (Hrun : _subscribe_channel (JStr "room") (joined calm 0%Z) =
                 (Ret tt, snd (_subscribe_channel (JStr "room") (joined calm 0%Z))))
    by (vm_compute; reflexivity).
  assert (Hc : _client (joined calm 0%Z) = Some tt) by (vm_compute; reflexivity).
  pose proof (subscription_steps (JStr "room") (joined calm 0%Z)
                (snd (_subscribe_channel (JStr "room") (joined calm 0%Z)))
                (Ret tt) Hrun) as H.
  rewrite Hc in H. exact H.
Defined.

Lemma send_message_payload_witness :
  exists payload,
    http_requests (skipn (length (trace (keyed calm 0%Z)))
                     (trace (snd (send_message "Hello, Bob!" (Some "bob")
                                    (keyed calm 0%Z))))) =
      [message_request payload (keyed calm 0%Z)] /\
    dict_get "content" payload = Some (JStr "Hello, Bob!") /\
    dict_get "to_username" payload = Some (JStr "bob") /\
    length payload = 2.
Proof.
  assert (Hkey : truthy (api_key (keyed calm 0%Z)) = true) by (vm_compute; reflexivity).
  exact (send_message_payload "Hello, Bob!" (Some "bob") (keyed calm 0%Z) Hkey).
Defined.

Lemma connect_requests_once_witness :
  exists evs,
    trace (snd (connect (keyed (rejecting 503) 0%Z))) =
      trace (keyed (rejecting 503) 0%Z) ++
      EHttp (bootstrap_request (keyed (rejecting 503) 0%Z)) :: evs /\
    forallb unrelated evs = true.
Proof.
  assert (Hkey : truthy (api_key (keyed (rejecting 503) 0%Z)) = true)
    by (vm_compute; reflexivity).
  exact (connect_requests_once (keyed (rejecting 503) 0%Z) Hkey).
Defined.

Lemma connect_returned_witness :
  exists status info w0 url token h w1 evs,
    http_send (bootstrap_request (keyed announcing 0%Z)) (ext (keyed announcing 0%Z)) =
      (HttpResponse status (Ret info), w0) /\
    is_success status = true /\
    subscript (Some info) "url" = Ret url /\
    subscript (Some info) "token" = Ret token /\
    CentrifugeClient url token w0 = (Ret h, w1) /\
    _client (joined announcing 0%Z) = Some h /\
    _connection_info (joined announcing 0%Z) = Some info /\
    trace (joined announcing 0%Z) =
      trace (keyed announcing 0%Z) ++
      [EHttp (bootstrap_request (keyed announcing 0%Z)); ECentrifugeClient url token;
       EClientOn HookConnected; EClientOn HookDisconnected; EClientOn HookError;
       EClientConnect] ++ evs /\
    forallb handler_event evs = true.
Proof.
  assert (Hrun : connect (keyed announcing 0%Z) = (Ret tt, joined announcing 0%Z))
    by (vm_compute; reflexivity).
  exact (connect_returned (keyed announcing 0%Z) (joined announcing 0%Z) Hrun).
Defined.

Lemma async_with_tears_down_witness :
  fst (async_with (ret tt) (keyed announcing 0%Z)) = Ret tt /\
  _client (snd (async_with (ret tt) (keyed announcing 0%Z))) = None /\
  connected (snd (async_with (ret tt) (keyed announcing 0%Z))) = false.
Proof.
  assert (Hrun : async_with (ret tt) (keyed announcing 0%Z) =
                 (Ret tt, snd (async_with (ret tt) (keyed announcing 0%Z))))
    by (vm_compute; reflexivity).
  assert (Hconn : connect (keyed announcing 0%Z) = (Ret tt, joined announcing 0%Z))
    by (vm_compute; reflexivity).
  assert (Hsame : _client (snd (ret tt (joined announcing 0%Z))) =
                  _client (joined announcing 0%Z))
    by (vm_compute; reflexivity).
  assert (Hleft : fst (disconnect (snd (ret tt (joined announcing 0%Z)))) = Ret tt)
    by (vm_compute; reflexivity).
  pose proof (async_with_tears_down (ret tt) (keyed announcing 0%Z)
                (snd (async_with (ret tt) (keyed announcing 0%Z))) (Ret tt) Hrun) as H.
  rewrite Hconn in H.
  destruct (H Hsame) as [_ Hm]. rewrite Hleft in Hm.
  destruct Hm as [_ [Hc Hf]].
  split; [ vm_compute; reflexivity | ]. split; [ exact Hc | exact Hf ].
Defined.

Lemma request_outcome_witness :
  fst (Rest._request unit (Rest.answering 201) Rest.test_client POST "/messages"
         true None [] (tt, [])) =
    Rest.Ok (Rest.mkResponse 201 (Ret (JDict [])) "") /\
  (Rest.status_code (Rest.mkResponse 201 (Ret (JDict [])) "") < 400)%Z.
Proof.
  split; [ reflexivity | ].
  assert (Hgate : true && negb (truthy (Rest.api_key Rest.test_client)) = false)
    by reflexivity.
  destruct (request_outcome unit (Rest.answering 201) Rest.test_client POST "/messages"
              true None [] (tt, []) Hgate) as [Hok _].
  apply (Hok (Rest.mkResponse 201 (Ret (JDict [])) "")
             (tt, [Rest.mkCall POST "http://test.example.com/messages"
                     (Rest._get_headers Rest.test_client) None []])).
  reflexivity.
Defined.

Lemma page_requests_witness :
  dict_get "since" (Rest.page_params 10 20 (Some "")) = Some (JStr "") /\
  dict_get "since" (Rest.page_params 50 0 None) = None.
Proof.
  assert (Hkey : truthy (Rest.api_key Rest.test_client) = true) by reflexivity.
  split.
  - exact (proj2 (proj2 (proj2 (proj2
      (page_requests unit (Rest.answering 200) json (fun v => Ret v)
         Rest.test_client 10 20 (Some "") (tt, []) Hkey))))).
  - exact (proj2 (proj2 (proj2 (proj2
      (page_requests unit (Rest.answering 200) json (fun v => Ret v)
         Rest.test_client 50 0 None (tt, []) Hkey))))).
Defined.

Lemma only_health_check_without_key_witness :
  Rest.get_users unit Rest.unreachable Rest.anonymous (tt, []) = (Rest.refused, (tt, [])) /\
  snd (snd (Rest.health_check unit Rest.unreachable Rest.anonymous (tt, []))) =
    [Rest.mkCall GET "http://test.example.com/health"
       [("Content-Type", "application/json")] None []].
Proof.
  assert (Hkey : truthy (Rest.api_key Rest.anonymous) = false) by reflexivity.
  destruct (only_health_check_without_key unit Rest.unreachable json json
              (fun v => Ret v) (fun v => Ret v) (fun c t => Ret (JStr c))
              Rest.anonymous (tt, []) Hkey) as [Husers [_ [_ [_ Hhealth]]]].
  split; [ exact Husers | exact Hhealth ].
Defined.

Lemma connect_incomplete_credentials_witness :
  exists st',
    connect (keyed tokenless 0%Z) =
      (Raise (NetworkError "Failed to connect to Centrifugo" (KeyError "token")), st') /\
    _connection_info st' = Some (JDict [("url", JStr "wss://rt.example/connection")]) /\
    _client st' = _client (keyed tokenless 0%Z) /\
    trace st' =
      trace (keyed tokenless 0%Z) ++
      [EHttp (bootstrap_request (keyed tokenless 0%Z));
       ELog ERROR (LogConnectFailed (KeyError "token"))].
Proof.
  apply (connect_incomplete_credentials (keyed tokenless 0%Z) 200
           (JDict [("url", JStr "wss://rt.example/connection")]) 0%Z
           (KeyError "token")); vm_compute; reflexivity.
Defined.

Lemma connected_without_channels_witness :
  exists st',
    on_connected (joined tokenless 0%Z) = (Raise (KeyError "channels"), st') /\
    connected st' = true /\
    trace st' =
      trace (joined tokenless 0%Z) ++
      ELog INFO LogConnected ::
      match on_connect (joined tokenless 0%Z) with
      | Some _ => [ECallback CbConnect]
      | None => []
      end.
Proof.
  assert (Hch : subscript (_connection_info (joined tokenless 0%Z)) "channels" =
                Raise (KeyError "channels")) by (vm_compute; reflexivity).
  assert (Hcb : match on_connect (joined tokenless 0%Z) with
                | Some f => fst (f (ext (joined tokenless 0%Z))) = Ret tt
                | None => True
                end) by (vm_compute; reflexivity).
  exact (connected_without_channels (joined tokenless 0%Z) (KeyError "channels") Hch Hcb).
Defined.

Lemma waiting_bounds_witness :
  wait_until_connected 1 (Finite (-1)) (keyed calm 0%Z) =
    (Some (Raise (TimeoutError "Connection timeout")),
     set_ext (E := calm) 2%Z (keyed calm 0%Z)) /\
  fst (wait_until_connected 1 (Finite 0) (keyed calm 0%Z)) =
    Some (Raise (TimeoutError "Connection timeout")).
Proof.
  assert (Hd : connected (keyed calm 0%Z) = false) by reflexivity.
  assert (Hm : (fst (loop_time (ext (keyed calm 0%Z))) <=
                fst (loop_time (snd (loop_time (ext (keyed calm 0%Z))))))%Z)
    by (cbn; lia).
  split.
  - exact (proj2 (waiting_bounds (-1) (keyed calm 0%Z) Hd Hm) eq_refl 0).
  - apply (proj1 (waiting_bounds 0 (keyed calm 0%Z) Hd Hm)). cbn. lia.
Defined.

Lemma failed_disconnect_keeps_the_handle_witness :
  (exists h, _client (joined stuck 0%Z) = Some h) /\
  _client (snd (disconnect (joined stuck 0%Z))) = _client (joined stuck 0%Z) /\
  exists evs,
    trace (snd (disconnect (snd (disconnect (joined stuck 0%Z))))) =
      trace (snd (disconnect (joined stuck 0%Z))) ++ EClientDisconnect :: evs.
Proof.
  assert (Hr : fst (disconnect (joined stuck 0%Z)) = Raise (ForeignError "CloseError"))
    by (vm_compute; reflexivity).
  exact (failed_disconnect_keeps_the_handle (joined stuck 0%Z)
           (ForeignError "CloseError") Hr).
Defined.
